(** * useAxios: a reactive request helper

    A shallow embedding of [useAxios] and [executeWithRetry]: the reactive
    cells, the single shared [AbortController], the templated URL, the merged
    request configuration and the retry loop.

    The hook is an open system: [execute] runs synchronously up to its
    [await], and the transport (the axios instance) settles each outstanding
    call later.  The embedding therefore has one function for the synchronous
    part of [execute], one for the promise handlers of [executeWithRetry] and
    one for the continuation of [execute] after the [await]; user calls and
    transport outcomes arrive as events. *)

From Stdlib Require Import ZArith Ascii String DecimalString.
From stdpp Require Import gmap strings list fin_maps.
From Equations Require Import Equations.

Local Open Scope Z_scope.

(** ** JavaScript values and objects *)

(** The integers that a number holds exactly, from [-(2^53 - 1)] to
    [2^53 - 1]: the numbers of the embedding. *)
Definition safe (z : Z) : bool :=
  (-9007199254740991 <=? z) && (z <=? 9007199254740991).

(** Objects live in a heap and are passed by reference, so that aliasing and
    mutation by [Object.assign] are visible.  The objects of the heap are
    plain ones: what they do not have themselves they inherit from
    [Object.prototype], whose members are built-in functions ([VNative],
    by name) and, under [__proto__], the prototype itself. *)
Inductive value :=
| VUndefined
| VNull
| VBool (b : bool)
| VNum (z : {z : Z | safe z})
| VStr (s : string)
| VObj (l : nat)
| VSignal (c : nat)
| VNative (name : string)
| VPrototype.

#[global] Instance value_eq_dec : EqDecision value.
Proof. solve_decision. Defined.

Abbreviation object := (gmap string value).
Abbreviation Heap := (list (gmap string value)).

(** An object literal or a spread result: a new heap cell. *)
Definition alloc (o : object) (h : Heap) : nat * Heap := (length h, h ++ [o]).

(** The own properties of what [v] refers to; primitives have none here. *)
Definition props (h : Heap) (v : value) : object :=
  match v with
  | VObj l => default ∅ (h !! l)
  | _ => ∅
  end.

(** The members of [Object.prototype]. *)
Definition Object_prototype : gmap string value :=
  {[ "constructor" := VNative "Object";
     "__defineGetter__" := VNative "__defineGetter__";
     "__defineSetter__" := VNative "__defineSetter__";
     "hasOwnProperty" := VNative "hasOwnProperty";
     "__lookupGetter__" := VNative "__lookupGetter__";
     "__lookupSetter__" := VNative "__lookupSetter__";
     "isPrototypeOf" := VNative "isPrototypeOf";
     "propertyIsEnumerable" := VNative "propertyIsEnumerable";
     "toString" := VNative "toString";
     "valueOf" := VNative "valueOf";
     "__proto__" := VPrototype;
     "toLocaleString" := VNative "toLocaleString" ]}.

(** What [v] inherits under [key]. *)
Definition inherited (v : value) (key : string) : value :=
  match v with
  | VObj _ | VPrototype => default VUndefined (Object_prototype !! key)
  | _ => VUndefined
  end.

(** [v[key]]: an own property first, an inherited one otherwise.  (A
    primitive where the types ask for an object has no property here.) *)
Definition get (h : Heap) (v : value) (key : string) : value :=
  match props h v !! key with
  | Some x => x
  | None => inherited v key
  end.

(** JavaScript truthiness. *)
Definition truthy (v : value) : bool :=
  match v with
  | VUndefined | VNull => false
  | VBool b => b
  | VNum z => negb (`z =? 0)
  | VStr s => negb (String.eqb s "")
  | VObj _ | VSignal _ | VNative _ | VPrototype => true
  end.

(** [v ?? d] *)
Definition nullish (v : value) : bool :=
  match v with
  | VUndefined | VNull => true
  | _ => false
  end.

(** [String(v)]; a built-in function as V8 prints it. *)
Definition String_ (v : value) : string :=
  match v with
  | VUndefined => "undefined"
  | VNull => "null"
  | VBool true => "true"
  | VBool false => "false"
  | VNum z => NilZero.string_of_int (Z.to_int (`z))
  | VStr s => s
  | VObj _ | VPrototype => "[object Object]"
  | VSignal _ => "[object AbortSignal]"
  | VNative name => "function " +:+ name +:+ "() { [native code] }"
  end.

(** [Object.assign(target, ...sources)]: each source in turn writes its own
    properties INTO the target cell; [undefined] and [null] sources are
    skipped.  The result is the target reference. *)
Definition assign1 (target : nat) (h : Heap) (src : value) : Heap :=
  match h !! target with
  | Some t => <[target := props h src ∪ t]> h
  | None => h
  end.

Definition Object_assign (target : nat) (sources : list value) (h : Heap) : Heap :=
  foldl (assign1 target) h sources.

(** ** The placeholder pattern [\{(\w+)\}] *)

Definition is_word (c : ascii) : bool :=
  let n := nat_of_ascii c in
  ((65 <=? n) && (n <=? 90) || (97 <=? n) && (n <=? 122)
   || (48 <=? n) && (n <=? 57) || (n =? 95))%nat.

(** The longest run of word characters at the head of [s], and what follows. *)
Fixpoint span_word (s : string) : string * string :=
  match s with
  | String c t =>
      if is_word c then let (w, rest) := span_word t in (String c w, rest)
      else ("", s)
  | EmptyString => ("", "")
  end.

(** A match of the pattern anchored at the head of [s]: the captured key and
    the text after the closing brace.  [\w+] is greedy and a brace is no word
    character, so backtracking cannot produce any other match. *)
Definition match_here (s : string) : option (string * string) :=
  match s with
  | String "{" t =>
      match span_word t with
      | (String c w, String "}" rest) => Some (String c w, rest)
      | _ => None
      end
  | _ => None
  end.

(** [/\{\w+\}/.test(s)] *)
Fixpoint test (s : string) : bool :=
  match match_here s with
  | Some _ => true
  | None => match s with String _ t => test t | EmptyString => false end
  end.

(** [s.replace(/\{(\w+)\}/, (_, key) => f(key))]: the pattern has no [g]
    flag, so the leftmost match is replaced and the rest is copied. *)
Fixpoint replace (f : string -> string) (s : string) : string :=
  match match_here s with
  | Some (key, rest) => f key +:+ rest
  | None => match s with String c t => String c (replace f t) | EmptyString => "" end
  end.

(** Strings made of word characters, and strings without an opening brace. *)
Fixpoint all_word (s : string) : bool :=
  match s with
  | String c t => is_word c && all_word t
  | EmptyString => true
  end.

Fixpoint no_brace (s : string) : bool :=
  match s with
  | String c t => negb (Ascii.eqb c "{") && no_brace t
  | EmptyString => true
  end.

(** [pre{key}post] *)
Definition placeholder (pre key post : string) : string :=
  pre +:+ String "{" (key +:+ String "}" post).

(** ** axios *)

Record AxiosResponse := { status : Z; body : value (* res.data *) }.

(** [canceled] is the mark that [axios.isCancel] looks for. *)
Record AxiosError := { canceled : bool; message : string }.

Inductive outcome :=
| Fulfilled (res : AxiosResponse)
| Rejected (err : AxiosError).

Module axios.
(** [axios.isCancel(err)], where [err] may be [undefined]. *)
Definition isCancel (err : option AxiosError) : bool :=
  match err with
  | Some e => canceled e
  | None => false
  end.
End axios.

(** ** Options and the result of [execute] *)

(** [payload?: T | (() => T)]: a value (absent is [PayloadValue VUndefined])
    or a producer, which may allocate the object it returns. *)
Inductive PayloadOption :=
| PayloadValue (v : value)
| PayloadFn (f : Heap -> value * Heap).

(** The callbacks are opaque to the hook: an option records whether one was
    given, and a call of it is an entry of the log; a callback is taken not
    to call [execute] or [cancel] itself.  [retry] is an integral count. *)
Record UseAxiosOptions := {
  autoCancelLastReq : bool;
  autoCancelOnUnmounted : bool;
  immediate : bool;
  payload : PayloadOption;
  retry : Z;
  onSuccess : bool;
  onError : bool;
  onFinish : bool
}.

(** What [useAxios] closes over. *)
Record Setup := {
  url : string;
  config : value;
  options : UseAxiosOptions;
  getCurrentInstance : bool
}.

Module ExecuteReturn.
Record t := {
  response : option AxiosResponse;
  data : value;
  error : option AxiosError;
  isCancel : bool
}.
End ExecuteReturn.

(** ** The state of one hook instance *)

Inductive effect :=
| Request (call : nat) (_url : string) (_config : object)
| PayloadProducer
| OnSuccess (d : value) (res : AxiosResponse)
| OnError (err : AxiosError)
| OnFinish
| Returned (call : nat) (r : ExecuteReturn.t).

(** An [execute] call suspended at its [await]: the closure of [asyncFn] and
    the counter [time] of [executeWithRetry]. *)
Record Call := { c_url : string; c_config : nat; time : Z }.

Record Hook := {
  response : option AxiosResponse;
  data : value;
  error : option AxiosError;
  isLoading : bool;
  isFinished : bool;
  (** [let controller: AbortController], undefined until the first call *)
  controller : option nat;
  (** every [AbortController] made so far, with its [signal.aborted] *)
  controllers : list bool;
  (** every [execute] call so far: [Some] while suspended, [None] once returned *)
  calls : list (option Call);
  heap : Heap;
  log : list effect
}.

Definition set_isLoading (b : bool) (s : Hook) : Hook :=
  {| response := response s; data := data s; error := error s;
     isLoading := b; isFinished := isFinished s;
     controller := controller s; controllers := controllers s;
     calls := calls s; heap := heap s; log := log s |}.

Definition set_isFinished (b : bool) (s : Hook) : Hook :=
  {| response := response s; data := data s; error := error s;
     isLoading := isLoading s; isFinished := b;
     controller := controller s; controllers := controllers s;
     calls := calls s; heap := heap s; log := log s |}.

Definition set_result (res : option AxiosResponse) (d : value)
    (err : option AxiosError) (s : Hook) : Hook :=
  {| response := res; data := d; error := err;
     isLoading := isLoading s; isFinished := isFinished s;
     controller := controller s; controllers := controllers s;
     calls := calls s; heap := heap s; log := log s |}.

Definition set_controller (c : option nat) (cs : list bool) (s : Hook) : Hook :=
  {| response := response s; data := data s; error := error s;
     isLoading := isLoading s; isFinished := isFinished s;
     controller := c; controllers := cs;
     calls := calls s; heap := heap s; log := log s |}.

Definition set_calls (cl : list (option Call)) (s : Hook) : Hook :=
  {| response := response s; data := data s; error := error s;
     isLoading := isLoading s; isFinished := isFinished s;
     controller := controller s; controllers := controllers s;
     calls := cl; heap := heap s; log := log s |}.

Definition set_heap (h : Heap) (s : Hook) : Hook :=
  {| response := response s; data := data s; error := error s;
     isLoading := isLoading s; isFinished := isFinished s;
     controller := controller s; controllers := controllers s;
     calls := calls s; heap := h; log := log s |}.

Definition emit (e : effect) (s : Hook) : Hook :=
  {| response := response s; data := data s; error := error s;
     isLoading := isLoading s; isFinished := isFinished s;
     controller := controller s; controllers := controllers s;
     calls := calls s; heap := heap s; log := log s ++ [e] |}.

(** [cb?.(...)] *)
Definition emit_if (given : bool) (e : effect) (s : Hook) : Hook :=
  if given then emit e s else s.

(** ** cancel *)

(** [controller?.abort()] *)
Definition abort (s : Hook) : Hook :=
  match controller s with
  | Some c => set_controller (Some c) (<[c := true]> (controllers s)) s
  | None => s
  end.

Definition cancel (s : Hook) : Hook :=
  if isLoading s then s
  else set_isLoading false (abort s).

(** ** execute, up to the await *)

Definition isDynamicURL (U : Setup) : bool := test (url U).

(** [const defaultPayload = () => (typeof payload === 'function' ? payload() : payload)] *)
Definition defaultPayload (U : Setup) (s : Hook) : value * Hook :=
  match payload (options U) with
  | PayloadFn f => let (v, h) := f (heap s) in (v, emit PayloadProducer (set_heap h s))
  | PayloadValue v => (v, s)
  end.

(** The URL of the request: [url.replace] when the URL is templated and
    [urlParams] is given. *)
Definition request_url (U : Setup) (h : Heap) (urlParams : value) : string :=
  if isDynamicURL U && truthy urlParams
  then replace (fun key => String_ (get h urlParams key)) (url U)
  else url U.

(** [const { urlParams, ...restPayload } = payload ?? {}] and
    [Object.assign({}, config, restPayload, { signal: controller.signal })]:
    the URL, the reference to [_config] and the heap afterwards. *)
Definition request_of (U : Setup) (c : nat) (payload : value) (h : Heap)
    : string * nat * Heap :=
  let (src, h) :=
    if nullish payload then let (l, h) := alloc ∅ h in (VObj l, h)
    else (payload, h) in
  let urlParams := get h src "urlParams" in
  let (restPayload, h) := alloc (delete "urlParams" (props h src)) h in
  let _url := request_url U h urlParams in
  let (target, h) := alloc ∅ h in
  let (sig, h) := alloc {[ "signal" := VSignal c ]} h in
  let h := Object_assign target [config U; VObj restPayload; VObj sig] h in
  (_url, target, h).

(** [instance(_url, _config)]: the transport reads the object behind
    [_config] when it is called. *)
Definition invoke (id : nat) (c : Call) (s : Hook) : Hook :=
  emit (Request id (c_url c) (props (heap s) (VObj (c_config c)))) s.

(** The body of [execute] for a given [payload], through the first call of
    [asyncFnWrap], which [executeWithRetry] makes before it returns its
    promise. *)
Definition execute_body (U : Setup) (payload : value) (s : Hook) : Hook :=
  let s := if autoCancelLastReq (options U) then cancel s else s in
  let c := length (controllers s) in
  let s := set_controller (Some c) (controllers s ++ [false]) s in
  let '(_url, _config, h) := request_of U c payload (heap s) in
  let s := set_heap h s in
  let s := set_isLoading true s in
  let s := set_isFinished false s in
  let id := length (calls s) in
  let call := {| c_url := _url; c_config := _config; time := retry (options U) |} in
  invoke id call (set_calls (calls s ++ [Some call]) s).

(** [execute(payload = defaultPayload())]: the default is evaluated only
    when the argument is [undefined], and before the body. *)
Definition execute (U : Setup) (arg : value) (s : Hook) : Hook :=
  match arg with
  | VUndefined => let (p, s) := defaultPayload U s in execute_body U p s
  | _ => execute_body U arg s
  end.

(** ** executeWithRetry and the continuation of execute *)

Inductive next :=
| Again (time' : Z)
| Resolve (res : option AxiosResponse) (err : option AxiosError).

(** [.then(res => resolve([res, undefined]))] and
    [.catch(err => (time-- > 0 ? asyncFnWrap() : resolve([undefined, err])))] *)
Definition handlers (time : Z) (o : outcome) : next :=
  match o with
  | Fulfilled res => Resolve (Some res) None
  | Rejected err => if 0 <? time then Again (time - 1) else Resolve None (Some err)
  end.

(** [execute] after the [await], with [[res, err]] the value of the promise. *)
Definition resume (U : Setup) (res : option AxiosResponse)
    (err : option AxiosError) (s : Hook) : Hook * ExecuteReturn.t :=
  if axios.isCancel err then
    (s, {| ExecuteReturn.response := None; ExecuteReturn.data := VUndefined;
           ExecuteReturn.error := None; ExecuteReturn.isCancel := true |})
  else
    let d := match res with Some r => body r | None => VUndefined end in
    let s := set_result res d err s in
    let s := set_isLoading false s in
    let s :=
      match res, err with
      | Some r, _ => emit_if (onSuccess (options U)) (OnSuccess (body r) r) s
      | None, Some e => emit_if (onError (options U)) (OnError e) s
      | None, None => s
      end in
    let s := set_isFinished true s in
    let s := emit_if (onFinish (options U)) OnFinish s in
    (s, {| ExecuteReturn.response := res; ExecuteReturn.data := d;
           ExecuteReturn.error := err; ExecuteReturn.isCancel := false |}).

(** The transport settles the outstanding attempt of call [id]: either
    [asyncFnWrap] calls the transport again, or the promise resolves and
    [execute] runs to its end.  No such attempt: the event cannot happen. *)
Definition settle (U : Setup) (id : nat) (o : outcome) (s : Hook) : option Hook :=
  match calls s !! id with
  | Some (Some c) =>
      match handlers (time c) o with
      | Again t =>
          let c := {| c_url := c_url c; c_config := c_config c; time := t |} in
          Some (invoke id c (set_calls (<[id := Some c]> (calls s)) s))
      | Resolve res err =>
          let (s, r) := resume U res err (set_calls (<[id := None]> (calls s)) s) in
          Some (emit (Returned id r) s)
      end
  | _ => None
  end.

(** ** The hook as a whole *)

Inductive event :=
| Execute (arg : value)
| Cancel
| Settle (id : nat) (o : outcome)
| Unmounted.

Definition step (U : Setup) (e : event) (s : Hook) : option Hook :=
  match e with
  | Execute arg => Some (execute U arg s)
  | Cancel => Some (cancel s)
  | Settle id o => settle U id o s
  | Unmounted =>
      if autoCancelOnUnmounted (options U) && getCurrentInstance U
      then Some (cancel s) else Some s
  end.

Fixpoint run (U : Setup) (es : list event) (s : Hook) : option Hook :=
  match es with
  | [] => Some s
  | e :: es => match step U e s with Some s => run U es s | None => None end
  end.

(** [useAxios(url, config, options, instance)] on a heap that holds the
    caller's objects. *)
Definition useAxios (U : Setup) (h : Heap) : Hook :=
  let s := {| response := None; data := VUndefined; error := None;
              isLoading := false; isFinished := false;
              controller := None; controllers := []; calls := [];
              heap := h; log := [] |} in
  if immediate (options U) then execute U VUndefined s else s.

(** The calls suspended at their [await]. *)
Definition in_flight (s : Hook) : list Call := omap id (calls s).

(** ** executeWithRetry against a transport *)

(** [executeWithRetry(asyncFn, time)] run to the end against a transport
    [asyncFn] that answers from a state [W] of its own.  The loop is the one
    of [asyncFnWrap], with the same [handlers]; [seen] is the outcome of each
    call of [asyncFn] so far, in order. *)
Section ExecuteWithRetry.
Context {W : Type} (asyncFn : W -> outcome * W).

Definition inspect {A} (a : A) : {b : A | a = b} := exist _ a eq_refl.

Equations? asyncFnWrap (time : Z) (w : W) (seen : list outcome)
    : option AxiosResponse * option AxiosError * W * list outcome
    by wf (Z.to_nat time) lt :=
  asyncFnWrap time w seen with inspect (handlers time (asyncFn w).1) := {
    | exist _ (Again t) _ := asyncFnWrap t (asyncFn w).2 (seen ++ [(asyncFn w).1]);
    | exist _ (Resolve res err) _ := (res, err, (asyncFn w).2, seen ++ [(asyncFn w).1]) }.
Proof.
  unfold handlers in *. destruct (asyncFn w).1; [discriminate|].
  match goal with
  | H : (if 0 <? ?t then _ else _) = _ |- _ =>
      destruct (Z.ltb_spec 0 t); [injection H as <-; lia | discriminate]
  end.
Qed.

Definition executeWithRetry (time : Z) (w : W)
    : option AxiosResponse * option AxiosError * W * list outcome :=
  asyncFnWrap time w [].

(** The outcomes of the first [k] calls of [asyncFn] in a row. *)
Fixpoint outcomes (k : nat) (w : W) : list outcome :=
  match k with
  | O => []
  | S k => (asyncFn w).1 :: outcomes k (asyncFn w).2
  end.
End ExecuteWithRetry.

(** A transport that plays a script, and fails once the script is over. *)
Definition scripted (w : list outcome) : outcome * list outcome :=
  match w with
  | o :: w => (o, w)
  | [] => (Rejected {| canceled := false; message := "Network Error" |}, [])
  end.

(** A reference is closed in a heap when the object it names is there. *)
Definition closed (h : Heap) (v : value) : Prop :=
  match v with
  | VObj l => (l < length h)%nat
  | _ => True
  end.

(** The calls of the callbacks among the effects. *)
Definition is_callback (e : effect) : bool :=
  match e with
  | OnSuccess _ _ | OnError _ | OnFinish => true
  | _ => false
  end.

Definition callbacks (l : list effect) : list effect := List.filter is_callback l.

Definition is_rejected (o : outcome) : bool :=
  match o with
  | Rejected _ => true
  | Fulfilled _ => false
  end.

(** The five reactive cells. *)
Definition cells (s : Hook) :=
  (response s, data s, error s, isLoading s, isFinished s).

(** The transport rejects the attempts of call [id] one after the other. *)
Definition rejections (id : nat) (errs : list AxiosError) : list event :=
  map (fun e => Settle id (Rejected e)) errs.

(** [{ isCancel: true } as ExecuteReturn<D>] *)
Definition canceled_return : ExecuteReturn.t :=
  {| ExecuteReturn.response := None; ExecuteReturn.data := VUndefined;
     ExecuteReturn.error := None; ExecuteReturn.isCancel := true |}.

(** The signals that the suspended calls gave to the transport, and whether
    a signal has been aborted. *)
Definition signals (s : Hook) : list value :=
  (λ c, get (heap s) (VObj (c_config c)) "signal") <$> in_flight s.

Definition aborted (s : Hook) (v : value) : bool :=
  match v with
  | VSignal c => default false (controllers s !! c)
  | _ => false
  end.

(** ** Sample hooks *)

Definition sample_options (auto : bool) (n : Z) : UseAxiosOptions :=
  {| autoCancelLastReq := auto; autoCancelOnUnmounted := false;
     immediate := false; payload := PayloadValue VUndefined; retry := n;
     onSuccess := true; onError := true; onFinish := true |}.

(** [useAxios('/items', undefined, { autoCancelLastReq: auto, retry: n, ... })] *)
Definition items (auto : bool) (n : Z) : Setup :=
  {| url := "/items"; config := VUndefined; options := sample_options auto n;
     getCurrentInstance := false |}.

(** [useAxios('/users/{id}/posts/{pid}', { method: 'get', params: { page: 1 } })] *)
Definition posts : Setup :=
  {| url := "/users/{id}/posts/{pid}"; config := VObj 0;
     options := sample_options false 0; getCurrentInstance := false |}.

(** The objects of the caller: cell 0 is the config of [posts], cell 2 the
    payload [{ urlParams: { id: 7, pid: 'x' }, params: { page: 2 } }] and
    cell 5 the payload [{ urlParams: { id: 7 } }]. *)
Definition caller_heap : Heap :=
  [ {[ "method" := VStr "get"; "params" := VObj 1 ]};
    {[ "page" := VNum (1 ↾ I) ]};
    {[ "urlParams" := VObj 3; "params" := VObj 4 ]};
    {[ "id" := VNum (7 ↾ I); "pid" := VStr "x" ]};
    {[ "page" := VNum (2 ↾ I) ]};
    {[ "urlParams" := VObj 6 ]};
    {[ "id" := VNum (7 ↾ I) ]} ].

Definition timeout_error : AxiosError := {| canceled := false; message := "timeout of 1000ms exceeded" |}.
Definition server_error : AxiosError := {| canceled := false; message := "Request failed with status code 500" |}.
Definition canceled_error : AxiosError := {| canceled := true; message := "canceled" |}.
Definition ok_response : AxiosResponse := {| status := 200; body := VStr "ok" |}.

(** ** The argument of execute *)

(** What a call site passes: [execute()] or [execute(v)].  The parameter
    of [execute] is [undefined] when nothing is passed. *)
Inductive argument :=
| NoArgument
| Argument (v : value).

Definition passed (a : argument) : value :=
  match a with
  | NoArgument => VUndefined
  | Argument v => v
  end.

(** The payload by the rule of the interface: the argument when one other
    than [undefined] is passed, otherwise the configured payload, called
    first when it is a function.  With it, the heap in which it is read and
    the call of the producer, if any. *)
Definition payload_by_rule (U : Setup) (a : argument) (h : Heap)
    : value * Heap * list effect :=
  match a with
  | Argument v =>
      if decide (v = VUndefined) then
        match payload (options U) with
        | PayloadFn f => ((f h).1, (f h).2, [PayloadProducer])
        | PayloadValue d => (d, h, [])
        end
      else (v, h, [])
  | NoArgument =>
      match payload (options U) with
      | PayloadFn f => ((f h).1, (f h).2, [PayloadProducer])
      | PayloadValue d => (d, h, [])
      end
  end.

(** [useAxios('/items', { method: 'get' }, { payload: { params: { page: 1 } } })] *)
Definition paged : Setup :=
  {| url := "/items"; config := VObj 0;
     options :=
       {| autoCancelLastReq := false; autoCancelOnUnmounted := false;
          immediate := false; payload := PayloadValue (VObj 1); retry := 0;
          onSuccess := true; onError := true; onFinish := true |};
     getCurrentInstance := false |}.

Definition paged_heap : Heap :=
  [ {[ "method" := VStr "get" ]};
    {[ "params" := VObj 2 ]};
    {[ "page" := VNum (1 ↾ I) ]} ].

(** ** Reading a run of the hook *)

(** The state before [if (immediate) execute()]. *)
Definition setup (h : Heap) : Hook :=
  {| response := None; data := VUndefined; error := None;
     isLoading := false; isFinished := false;
     controller := None; controllers := []; calls := [];
     heap := h; log := [] |}.

(** The states that a hook set up on heap [h] can be in. *)
Definition reachable (U : Setup) (h : Heap) (s : Hook) : Prop :=
  ∃ es, run U es (useAxios U h) = Some s.

Definition is_request_of (id : nat) (e : effect) : bool :=
  match e with
  | Request i _ _ => Nat.eqb i id
  | _ => false
  end.

(** How many times call [id] has called the transport so far. *)
Definition attempts (id : nat) (s : Hook) : nat :=
  length (List.filter (is_request_of id) (log s)).

(** The shared controller is the last one made, and there is one controller
    for each call. *)
Definition latest_controller (s : Hook) : Prop :=
  length (controllers s) = length (calls s)
  ∧ controller s = match length (controllers s) with
                   | O => None
                   | S k => Some k
                   end.

(** With [n] the retry count: a suspended call has made [n + 1 - time]
    attempts, a returned one at most [n + 1], a call to come none. *)
Definition attempts_bounded (n : Z) (s : Hook) : Prop :=
  ∀ id,
    match calls s !! id with
    | Some (Some c) => 0 <= time c ∧ Z.of_nat (attempts id s) + time c = n + 1
    | Some None => Z.of_nat (attempts id s) <= n + 1
    | None => attempts id s = 0%nat
    end.

(** The events that deliver the outcomes [os] to call [id]. *)
Definition deliveries (id : nat) (os : list outcome) : list event :=
  map (Settle id) os.

(** ['/items'] after two calls, the first of which has succeeded while the
    second is still pending. *)
Definition second_call_pending (auto : bool) : Hook :=
  default (setup [])
    (run (items auto 0)
       [Execute VUndefined; Execute VUndefined; Settle 0 (Fulfilled ok_response)]
       (useAxios (items auto 0) [])).

(** * Properties *)

(** ** The heap under [Object.assign] *)

Lemma assign1_length target h src : length (assign1 target h src) = length h.
Proof.
  unfold assign1. destruct (h !! target); [apply length_insert | reflexivity].
Qed.

Lemma assign1_other target h src l :
  l ≠ target → assign1 target h src !! l = h !! l.
Proof.
  intros Hne. unfold assign1. destruct (h !! target); [|reflexivity].
  apply list_lookup_insert_ne. congruence.
Qed.

Lemma assign1_target target h src t :
  h !! target = Some t →
  assign1 target h src !! target = Some (props h src ∪ t).
Proof.
  intros Ht. unfold assign1. rewrite Ht.
  apply list_lookup_insert_eq. eapply lookup_lt_Some, Ht.
Qed.

Lemma Object_assign_length target srcs h :
  length (Object_assign target srcs h) = length h.
Proof.
  unfold Object_assign. revert h.
  induction srcs as [|v srcs IH]; intros h; simpl; [reflexivity|].
  rewrite IH. apply assign1_length.
Qed.

Lemma Object_assign_other target srcs h l :
  l ≠ target → Object_assign target srcs h !! l = h !! l.
Proof.
  intros Hne. unfold Object_assign. revert h.
  induction srcs as [|v srcs IH]; intros h; simpl; [reflexivity|].
  rewrite IH. apply assign1_other, Hne.
Qed.

(** Only the target cell is written: the cells before it are as they were. *)
Lemma Object_assign_take target srcs h n :
  (n ≤ target)%nat → take n (Object_assign target srcs h) = take n h.
Proof.
  intros Hn. apply list_eq. intros i.
  destruct (decide (i < n)%nat) as [Hi|Hi].
  - rewrite !lookup_take_lt by exact Hi. apply Object_assign_other. lia.
  - rewrite !lookup_take_ge by lia. reflexivity.
Qed.

Lemma props_other target srcs h v :
  v ≠ VObj target → props (Object_assign target srcs h) v = props h v.
Proof.
  intros Hne. destruct v; try reflexivity. simpl.
  rewrite Object_assign_other; [reflexivity | congruence].
Qed.

Lemma props_assign1_other target src h v :
  v ≠ VObj target → props (assign1 target h src) v = props h v.
Proof.
  intros Hne. destruct v; try reflexivity. simpl.
  rewrite assign1_other; [reflexivity | congruence].
Qed.

Lemma props_app h k v : closed h v → props (h ++ k) v = props h v.
Proof.
  destruct v; try reflexivity. simpl. intros Hl.
  rewrite lookup_app_l by exact Hl. reflexivity.
Qed.

(** The three sources of [execute], none of them the target: the later
    source wins on every key. *)
Lemma Object_assign_three target h a b c :
  h !! target = Some ∅ →
  a ≠ VObj target → b ≠ VObj target → c ≠ VObj target →
  props (Object_assign target [a; b; c] h) (VObj target)
  = props h c ∪ (props h b ∪ props h a).
Proof.
  intros Ht Ha Hb Hc. unfold Object_assign. simpl.
  pose proof (assign1_target target h a ∅ Ht) as H1.
  pose proof (assign1_target target _ b _ H1) as H2.
  pose proof (assign1_target target _ c _ H2) as H3.
  rewrite H3. simpl.
  rewrite !props_assign1_other by assumption.
  rewrite (right_id_L ∅ (∪)). reflexivity.
Qed.

(** ** The placeholder pattern *)

Lemma span_word_key key rest :
  all_word key = true → span_word (key +:+ String "}" rest) = (key, String "}" rest).
Proof.
  induction key as [|c key IH]; simpl; [done|].
  intros [Hc Hk]%andb_prop. by rewrite Hc, IH.
Qed.

Lemma match_here_key key rest :
  key ≠ "" → all_word key = true →
  match_here (String "{" (key +:+ String "}" rest)) = Some (key, rest).
Proof.
  intros Hne Hw. unfold match_here. rewrite span_word_key by done.
  by destruct key.
Qed.

Lemma match_here_other c t : Ascii.eqb c "{" = false → match_here (String c t) = None.
Proof.
  intros Hc. unfold match_here.
  destruct c as [[] [] [] [] [] [] [] []]; try done.
Qed.

Lemma append_nil s : "" +:+ s = s.
Proof. reflexivity. Qed.

Lemma append_cons c s t : String c s +:+ t = String c (s +:+ t).
Proof. reflexivity. Qed.

Lemma replace_unfold f s :
  replace f s =
    match match_here s with
    | Some (key, rest) => f key +:+ rest
    | None => match s with String c t => String c (replace f t) | EmptyString => "" end
    end.
Proof. by destruct s. Qed.

Lemma test_unfold s :
  test s =
    match match_here s with
    | Some _ => true
    | None => match s with String _ t => test t | EmptyString => false end
    end.
Proof. by destruct s. Qed.

(** Only the leftmost placeholder is replaced; what follows it is copied,
    further placeholders included. *)
Lemma replace_leftmost f pre key post :
  no_brace pre = true → key ≠ "" → all_word key = true →
  replace f (placeholder pre key post) = pre +:+ f key +:+ post.
Proof.
  intros Hpre Hne Hw. unfold placeholder.
  induction pre as [|c pre IH]; rewrite replace_unfold.
  - rewrite !append_nil. by rewrite match_here_key.
  - simpl in Hpre. apply andb_prop in Hpre as [Hc Hpre].
    apply negb_true_iff in Hc. rewrite !append_cons.
    rewrite match_here_other by done. by rewrite IH.
Qed.

Lemma test_placeholder pre key post :
  key ≠ "" → all_word key = true → test (placeholder pre key post) = true.
Proof.
  intros Hne Hw. unfold placeholder.
  induction pre as [|c pre IH]; rewrite test_unfold.
  - rewrite append_nil. by rewrite match_here_key.
  - rewrite append_cons. by destruct (match_here _).
Qed.

(** Without a placeholder the URL is returned as it is. *)
Lemma replace_static f s : test s = false → replace f s = s.
Proof.
  induction s as [|c s IH]; [done|].
  rewrite test_unfold, replace_unfold.
  destruct (match_here (String c s)); [done|]. intros Ht. by rewrite IH.
Qed.

(** The leftmost placeholder of a templated URL, with [urlParams] given. *)
Lemma request_url_leftmost U h l pre key post :
  url U = placeholder pre key post →
  no_brace pre = true → key ≠ "" → all_word key = true →
  request_url U h (VObj l) = pre +:+ String_ (get h (VObj l) key) +:+ post.
Proof.
  intros Hu Hpre Hne Hw. unfold request_url, isDynamicURL. rewrite Hu.
  rewrite test_placeholder by done. simpl andb. cbv iota.
  by rewrite replace_leftmost.
Qed.

(** ... and when [urlParams] neither has nor inherits its key. *)
Lemma request_url_missing_key U h l m pre key post :
  url U = placeholder pre key post →
  no_brace pre = true → key ≠ "" → all_word key = true →
  h !! l = Some m → m !! key = None → Object_prototype !! key = None →
  request_url U h (VObj l) = pre +:+ "undefined" +:+ post.
Proof.
  intros Hu Hpre Hne Hw Hl Hk Hi.
  rewrite (request_url_leftmost U h l pre key post) by done.
  unfold get, inherited. simpl. by rewrite Hl; simpl; rewrite Hk, Hi.
Qed.

(** [get] reads the object that the reference names in the heap. *)
Lemma get_props h k v key : props h v = props k v → get h v key = get k v key.
Proof. intros H. unfold get. by rewrite H. Qed.

Lemma get_nullish h v key : nullish v = true → get h v key = VUndefined.
Proof. by destruct v. Qed.

(** ** The request configuration *)

Lemma Object_assign_snoc target srcs v h :
  Object_assign target (srcs ++ [v]) h = assign1 target (Object_assign target srcs h) v.
Proof. unfold Object_assign. apply foldl_snoc. Qed.

(** [request_of] step by step: [h1] and [src] are the heap and the object
    after [payload ?? {}]. *)
Lemma request_of_unfold U c p h :
  ∃ h1 src,
    (nullish p = false ∧ h1 = h ∧ src = p
     ∨ nullish p = true ∧ h1 = h ++ [∅] ∧ src = VObj (length h)) ∧
    let h2 := h1 ++ [delete "urlParams" (props h1 src)] in
    let h3 := h2 ++ [∅] in
    let h4 := h3 ++ [{[ "signal" := VSignal c ]}] in
    request_of U c p h =
      (request_url U h2 (get h1 src "urlParams"), length h2,
       Object_assign (length h2) [config U; VObj (length h1); VObj (length h3)] h4).
Proof.
  unfold request_of, alloc. destruct (nullish p) eqn:Hn.
  - exists (h ++ [∅]), (VObj (length h)). split; [right; auto | reflexivity].
  - exists h, p. split; [left; auto | reflexivity].
Qed.

Lemma props_nullish h p : nullish p = true → props h p = ∅.
Proof. destruct p; simpl; intros; congruence. Qed.

(** The three cells that [request_of] allocates for the merge. *)
Lemma merge_cells (h1 : Heap) (r sg : object) :
  let h4 := ((h1 ++ [r]) ++ [∅]) ++ [sg] in
  h4 !! length h1 = Some r
  ∧ h4 !! length (h1 ++ [r]) = Some ∅
  ∧ h4 !! length ((h1 ++ [r]) ++ [∅]) = Some sg.
Proof.
  simpl. rewrite !length_app. simpl.
  rewrite <- !(assoc_L (++) h1). simpl.
  repeat split.
  - by rewrite list_lookup_middle.
  - rewrite lookup_app_r by lia. by replace (length h1 + 1 - length h1)%nat with 1%nat by lia.
  - rewrite lookup_app_r by lia. by replace (length h1 + 1 + 1 - length h1)%nat with 2%nat by lia.
Qed.

(** Whatever the sources hold, the signal of the merged object is the one
    of controller [c]. *)
Lemma request_of_signal U c p h :
  props (request_of U c p h).2 (VObj (request_of U c p h).1.2) !! "signal"
  = Some (VSignal c).
Proof.
  destruct (request_of_unfold U c p h) as (h1 & src & _ & ->). cbn [fst snd].
  set (r := delete "urlParams" (props h1 src)).
  destruct (merge_cells h1 r {[ "signal" := VSignal c ]}) as (_ & _ & Hsg).
  set (h4 := ((h1 ++ [r]) ++ [∅]) ++ [{[ "signal" := VSignal c ]}]) in *.
  change [config U; VObj (length h1); VObj (length ((h1 ++ [r]) ++ [∅]))]
    with ([config U; VObj (length h1)] ++ [VObj (length ((h1 ++ [r]) ++ [∅]))]).
  rewrite Object_assign_snoc.
  destruct (Object_assign (length (h1 ++ [r])) [config U; VObj (length h1)] h4
              !! length (h1 ++ [r])) as [t|] eqn:Ht.
  - cbn [props]. rewrite (assign1_target _ _ _ _ Ht).
    rewrite props_other by (rewrite !length_app; simpl; intros [=]; lia).
    cbn [props default]. rewrite Hsg. simpl.
    apply lookup_union_Some_l, lookup_singleton_eq.
  - apply lookup_ge_None in Ht. rewrite Object_assign_length in Ht.
    subst h4. rewrite !length_app in Ht. simpl in Ht. lia.
Qed.

(** With the config and the payload of the caller in the heap: the merged
    object, and the caller's part of the heap afterwards. *)
Lemma request_of_merge U c p h :
  closed h (config U) → closed h p →
  props (request_of U c p h).2 (VObj (request_of U c p h).1.2)
  = {[ "signal" := VSignal c ]} ∪ (delete "urlParams" (props h p) ∪ props h (config U)).
Proof.
  intros Hc Hp.
  destruct (request_of_unfold U c p h) as (h1 & src & Hsrc & ->). cbn [fst snd].
  set (r := delete "urlParams" (props h1 src)).
  assert (Hr : r = delete "urlParams" (props h p)).
  { subst r. f_equal. destruct Hsrc as [(_ & -> & ->)|(Hn & -> & ->)].
    - reflexivity.
    - rewrite (props_nullish _ _ Hn). simpl. by rewrite list_lookup_middle. }
  assert (∃ k, h1 = h ++ k) as [k Hk].
  { destruct Hsrc as [(_ & -> & _)|(_ & -> & _)]; [exists []; by rewrite app_nil_r | eauto]. }
  clearbody r. clear Hsrc.
  destruct (merge_cells h1 r {[ "signal" := VSignal c ]}) as (Hrest & Htarget & Hsg).
  set (h4 := ((h1 ++ [r]) ++ [∅]) ++ [{[ "signal" := VSignal c ]}]) in *.
  rewrite Object_assign_three.
  - f_equal; [|f_equal].
    + simpl. by rewrite Hsg.
    + simpl. rewrite Hrest. simpl. exact Hr.
    + subst h4 h1. rewrite <- !(assoc_L (++) h). by apply props_app.
  - exact Htarget.
  - destruct (config U); try discriminate. simpl in Hc.
    subst h1. rewrite !length_app. intros [=]. simpl in *. lia.
  - rewrite !length_app. intros [=]. simpl in *. lia.
  - rewrite !length_app. intros [=]. simpl in *. lia.
Qed.

Lemma request_of_frame U c p h :
  take (length h) (request_of U c p h).2 = h ∧ (length h ≤ (request_of U c p h).1.2)%nat.
Proof.
  destruct (request_of_unfold U c p h) as (h1 & src & Hsrc & ->). cbn [fst snd].
  assert (∃ k, h1 = h ++ k) as [k Hk].
  { destruct Hsrc as [(_ & -> & _)|(_ & -> & _)]; [exists []; by rewrite app_nil_r | eauto]. }
  subst h1. split.
  - rewrite Object_assign_take by (rewrite !length_app; lia).
    rewrite <- !(assoc_L (++) h). apply take_app_length.
  - rewrite !length_app. lia.
Qed.

(** ** cancel and the synchronous part of execute *)

Lemma cancel_while_loading s : isLoading s = true → cancel s = s.
Proof. intros H. unfold cancel. by rewrite H. Qed.

Lemma cancel_frame s :
  heap (cancel s) = heap s ∧ calls (cancel s) = calls s ∧ log (cancel s) = log s
  ∧ length (controllers (cancel s)) = length (controllers s).
Proof.
  unfold cancel, abort. destruct (isLoading s); [done|].
  destruct (controller s); simpl; [|done].
  by rewrite length_insert.
Qed.

Lemma execute_body_controller U p s :
  let s' := execute_body U p s in
  let c := length (controllers s) in
  controller s' = Some c ∧ controllers s' !! c = Some false
  ∧ length (controllers s') = S c.
Proof.
  simpl. unfold execute_body.
  set (s1 := if autoCancelLastReq (options U) then cancel s else s).
  assert (Hl : length (controllers s1) = length (controllers s)).
  { subst s1. destruct (autoCancelLastReq (options U)); [apply cancel_frame | done]. }
  destruct (request_of U _ p _) as [[u t] h'] eqn:Hreq. simpl.
  rewrite Hl. repeat split.
  - rewrite <- Hl. by apply list_lookup_middle.
  - rewrite length_app. simpl. lia.
Qed.

Lemma execute_body_request U p s :
  let c := length (controllers s) in
  let rq := request_of U c p (heap s) in
  let s' := execute_body U p s in
  log s' = log s ++ [Request (length (calls s)) rq.1.1 (props rq.2 (VObj rq.1.2))]
  ∧ heap s' = rq.2
  ∧ calls s' = calls s ++ [Some {| c_url := rq.1.1; c_config := rq.1.2; time := retry (options U) |}]
  ∧ isLoading s' = true ∧ isFinished s' = false
  ∧ response s' = response s ∧ data s' = data s ∧ error s' = error s.
Proof.
  simpl. unfold execute_body.
  set (s1 := if autoCancelLastReq (options U) then cancel s else s).
  assert (Hs1 : heap s1 = heap s ∧ calls s1 = calls s ∧ log s1 = log s
                ∧ length (controllers s1) = length (controllers s)
                ∧ response s1 = response s ∧ data s1 = data s ∧ error s1 = error s).
  { subst s1. destruct (autoCancelLastReq (options U)); [|done].
    destruct (cancel_frame s) as (? & ? & ? & ?). repeat split; try done.
    all: unfold cancel, abort; destruct (isLoading s); [done|];
      by destruct (controller s). }
  destruct Hs1 as (Hh & Hc & Hl & Hn & Hr & Hd & He).
  rewrite Hn. simpl. rewrite Hh.
  destruct (request_of U _ p _) as [[u t] h'] eqn:Hreq. simpl.
  rewrite Hc, Hl, Hr, Hd, He. done.
Qed.

Lemma defaultPayload_frame U s :
  controllers (defaultPayload U s).2 = controllers s
  ∧ calls (defaultPayload U s).2 = calls s
  ∧ controller (defaultPayload U s).2 = controller s.
Proof.
  unfold defaultPayload. destruct (payload (options U)) as [v|f]; [done|].
  by destruct (f (heap s)).
Qed.

(** [execute] is its body on some payload and on a state with the same
    controllers and calls. *)
Lemma execute_is_body U arg s :
  ∃ p s0, execute U arg s = execute_body U p s0
          ∧ controllers s0 = controllers s ∧ calls s0 = calls s.
Proof.
  destruct (defaultPayload_frame U s) as (Hc & Hl & _).
  destruct arg; simpl; try (eexists _, s; done).
  destruct (defaultPayload U s) as [p s0]. simpl in *. eauto.
Qed.

(** C6: every call of [execute] makes a new controller, one that did not
    exist before and is not aborted, and stores it in the one shared
    variable in place of whatever was there; the configuration given to the
    transport carries the signal of that controller, whatever signal the
    config of the hook or the payload may hold. *)
Theorem execute_overwrites_controller U arg s :
  let s' := execute U arg s in
  let c := length (controllers s) in
  controller s' = Some c
  ∧ controllers s !! c = None
  ∧ controllers s' !! c = Some false
  ∧ ∃ _url _config,
      last (log s') = Some (Request (length (calls s)) _url _config)
      ∧ _config !! "signal" = Some (VSignal c).
Proof.
  simpl. destruct (execute_is_body U arg s) as (p & s0 & -> & Hc & Hl).
  destruct (execute_body_controller U p s0) as (H1 & H2 & _).
  destruct (execute_body_request U p s0) as (H3 & _).
  simpl in *. rewrite Hc in *. rewrite Hl in *.
  repeat split; try done.
  - by apply lookup_ge_None.
  - eexists _, _. rewrite H3, last_snoc. split; [reflexivity|].
    apply request_of_signal.
Qed.

(** C10: the configuration sent to the transport is the config of the hook
    overridden by the payload without its [urlParams], overridden by the
    signal; so [params] and [data] come from the payload when it has them
    and from the config otherwise.  The merge writes into a new object:
    every object of the heap from before the call, the config and the
    payload among them, is left as it was. *)
Theorem request_config_merges U p s :
  closed (heap s) (config U) → closed (heap s) p →
  ∃ _url _config,
    last (log (execute_body U p s)) = Some (Request (length (calls s)) _url _config)
    ∧ _config = {[ "signal" := VSignal (length (controllers s)) ]}
                ∪ (delete "urlParams" (props (heap s) p) ∪ props (heap s) (config U))
    ∧ (∀ k, k = "params" ∨ k = "data" →
            _config !! k = match props (heap s) p !! k with
                           | Some v => Some v
                           | None => props (heap s) (config U) !! k
                           end)
    ∧ take (length (heap s)) (heap (execute_body U p s)) = heap s
    ∧ props (heap (execute_body U p s)) (config U) = props (heap s) (config U)
    ∧ props (heap (execute_body U p s)) p = props (heap s) p.
Proof.
  intros Hc Hp.
  destruct (execute_body_request U p s) as (Hlog & Hheap & _). cbv zeta in *.
  destruct (request_of_frame U (length (controllers s)) p (heap s)) as (Htake & _).
  rewrite <- Hheap in Htake.
  eexists _, _. rewrite Hlog, last_snoc. split; [reflexivity|].
  rewrite (request_of_merge _ _ _ _ Hc Hp).
  split; [reflexivity|]. split; [|split; [exact Htake|]].
  - intros k Hk. rewrite lookup_union_r.
    + rewrite lookup_union, lookup_delete_ne by (destruct Hk as [->| ->]; done).
      by destruct (props (heap s) p !! k), (props (heap s) (config U) !! k).
    + apply lookup_singleton_ne. destruct Hk as [->| ->]; done.
  - rewrite <- (take_drop (length (heap s)) (heap (execute_body U p s))), Htake.
    split; by apply props_app.
Qed.

(** ** The promise settles *)

Lemma settle_canceled U id c o res err s :
  calls s !! id = Some (Some c) →
  handlers (time c) o = Resolve res err →
  axios.isCancel err = true →
  settle U id o s
  = Some (emit (Returned id canceled_return) (set_calls (<[id := None]> (calls s)) s)).
Proof.
  intros Hc Hh He. unfold settle, resume. by rewrite Hc, Hh, He.
Qed.

Lemma settle_retry U id c e s :
  calls s !! id = Some (Some c) → 0 < time c →
  let c' := {| c_url := c_url c; c_config := c_config c; time := time c - 1 |} in
  settle U id (Rejected e) s
  = Some (invoke id c' (set_calls (<[id := Some c']> (calls s)) s)).
Proof.
  intros Hc Ht. unfold settle, handlers. rewrite Hc.
  by destruct (Z.ltb_spec 0 (time c)); [|lia].
Qed.

Lemma settle_failed U id c e s :
  calls s !! id = Some (Some c) → time c <= 0 → canceled e = false →
  settle U id (Rejected e) s
  = Some (emit (Returned id
                  {| ExecuteReturn.response := None; ExecuteReturn.data := VUndefined;
                     ExecuteReturn.error := Some e; ExecuteReturn.isCancel := false |})
            (emit_if (onFinish (options U)) OnFinish
               (set_isFinished true
                  (emit_if (onError (options U)) (OnError e)
                     (set_isLoading false
                        (set_result None VUndefined (Some e)
                           (set_calls (<[id := None]> (calls s)) s))))))).
Proof.
  intros Hc Ht He. unfold settle, handlers, resume. rewrite Hc.
  destruct (Z.ltb_spec 0 (time c)); [lia|]. simpl. by rewrite He.
Qed.

Lemma callbacks_app l k : callbacks (l ++ k) = callbacks l ++ callbacks k.
Proof. apply List.filter_app. Qed.

Lemma callbacks_emit_if b e s :
  is_callback e = true →
  callbacks (log (emit_if b e s)) = callbacks (log s) ++ (if b then [e] else []).
Proof.
  intros He. destruct b; simpl; [|by rewrite app_nil_r].
  rewrite callbacks_app. simpl. by rewrite He.
Qed.

Lemma callbacks_emit_other e s :
  is_callback e = false → callbacks (log (emit e s)) = callbacks (log s).
Proof.
  intros He. simpl. rewrite callbacks_app. simpl. by rewrite He, app_nil_r.
Qed.

(** C2: when the promise of [executeWithRetry] resolves with a cancellation,
    the error cell keeps the value it had and [execute] returns a result
    whose [isCancel] is true. *)
Theorem cancellation_not_stored U id c o res err s :
  calls s !! id = Some (Some c) →
  handlers (time c) o = Resolve res err →
  axios.isCancel err = true →
  ∃ s' r, settle U id o s = Some s'
          ∧ error s' = error s
          ∧ last (log s') = Some (Returned id r)
          ∧ ExecuteReturn.isCancel r = true.
Proof.
  intros Hc Hh He. eexists _, _.
  split; [by eapply settle_canceled|]. simpl.
  by rewrite last_snoc.
Qed.

(** C8, as amended: when the promise resolves with a cancellation, [execute]
    returns at once: the response, data and error cells keep the values
    they had, [isLoading] and [isFinished] keep the values they had just
    before, whatever these were, and the only effect is the return of
    [{ isCancel: true }], so no callback is called. *)
Theorem cancellation_returns_early U id c o res err s :
  calls s !! id = Some (Some c) →
  handlers (time c) o = Resolve res err →
  axios.isCancel err = true →
  ∃ s', settle U id o s = Some s'
        ∧ response s' = response s ∧ data s' = data s ∧ error s' = error s
        ∧ isLoading s' = isLoading s ∧ isFinished s' = isFinished s
        ∧ log s' = log s ++ [Returned id canceled_return].
Proof.
  intros Hc Hh He. eexists.
  split; [by eapply settle_canceled|]. done.
Qed.

(** C4: a call with [length errs] retries left whose attempts are all
    rejected, the last one with an error [e] that is no cancellation: after
    any number of the intermediate rejections the cells and the callbacks
    called are what they were, and after the last one the error cell holds
    [e], and the callbacks called since are [onError(e)], once, and then
    [onFinish()] (each when it was given). *)
Theorem final_error_stored_once U id errs e : ∀ c s,
  calls s !! id = Some (Some c) →
  time c = Z.of_nat (length errs) →
  canceled e = false →
  (∀ k, (k ≤ length errs)%nat →
        ∃ sk, run U (rejections id (take k errs)) s = Some sk
              ∧ cells sk = cells s
              ∧ callbacks (log sk) = callbacks (log s))
  ∧ ∃ s', run U (rejections id (errs ++ [e])) s = Some s'
          ∧ error s' = Some e ∧ response s' = None
          ∧ callbacks (log s')
            = callbacks (log s)
              ++ (if onError (options U) then [OnError e] else [])
              ++ (if onFinish (options U) then [OnFinish] else []).
Proof.
  induction errs as [|e0 errs IH]; intros c s Hc Ht He.
  - split.
    + intros k Hk. exists s. by rewrite take_nil.
    + simpl. rewrite (settle_failed U id c e s Hc) by (simpl in Ht; lia || done).
      eexists. split; [reflexivity|].
      do 2 (split; [by destruct (onError (options U)), (onFinish (options U))|]).
      rewrite callbacks_emit_other by done.
      rewrite callbacks_emit_if by done. cbn [log set_isFinished].
      rewrite callbacks_emit_if by done. by rewrite <- app_assoc.
  - pose proof (settle_retry U id c e0 s Hc ltac:(simpl in Ht; lia)) as Hs.
    cbv zeta in Hs.
    set (c' := {| c_url := c_url c; c_config := c_config c; time := time c - 1 |}) in *.
    set (s1 := invoke id c' (set_calls (<[id := Some c']> (calls s)) s)) in *.
    assert (Hc1 : calls s1 !! id = Some (Some c')).
    { simpl. apply list_lookup_insert_eq. eapply lookup_lt_Some, Hc. }
    assert (Ht1 : time c' = Z.of_nat (length errs)) by (simpl in *; lia).
    assert (Hcb : callbacks (log s1) = callbacks (log s)).
    { unfold s1, invoke. by rewrite callbacks_emit_other. }
    destruct (IH c' s1 Hc1 Ht1 He) as (IH1 & s' & Hrun & IH2).
    split.
    + intros [|k] Hk; [by exists s|].
      simpl. rewrite Hs. destruct (IH1 k) as (sk & ? & ? & ?); [simpl in Hk; lia|].
      exists sk. repeat split; try done. congruence.
    + exists s'. simpl. rewrite Hs. split; [done|]. by rewrite <- Hcb.
Qed.

(** ** The retry loop *)

Section Retry.
Context {W : Type} (asyncFn : W -> outcome * W).

Lemma asyncFnWrap_step time w seen :
  asyncFnWrap asyncFn time w seen =
    match handlers time (asyncFn w).1 with
    | Again t => asyncFnWrap asyncFn t (asyncFn w).2 (seen ++ [(asyncFn w).1])
    | Resolve res err => (res, err, (asyncFn w).2, seen ++ [(asyncFn w).1])
    end.
Proof.
  rewrite asyncFnWrap_equation_1.
  generalize (inspect (handlers time (asyncFn w).1)).
  intros [nx Hn]. destruct nx; simpl; by rewrite Hn.
Qed.

(** The loop from any point on: what it has seen grows by [fails ++ [o]],
    all of [fails] rejected, at most [time] of them. *)
Lemma asyncFnWrap_spec n : ∀ time w seen,
  time = Z.of_nat n →
  ∃ fails o,
    (asyncFnWrap asyncFn time w seen).2 = seen ++ fails ++ [o]
    ∧ fails ++ [o] = outcomes asyncFn (S (length fails)) w
    ∧ forallb is_rejected fails = true
    ∧ (length fails ≤ n)%nat
    ∧ match o with
      | Fulfilled r => (asyncFnWrap asyncFn time w seen).1.1 = (Some r, None)
      | Rejected e =>
          (asyncFnWrap asyncFn time w seen).1.1 = (None, Some e)
          ∧ length fails = n
      end.
Proof.
  induction n as [|n IH]; intros time w seen Ht; rewrite asyncFnWrap_step.
  - exists [], (asyncFn w).1. unfold handlers.
    destruct (asyncFn w).1 as [r|e] eqn:Ho; simpl; rewrite ?Ho; [done|].
    destruct (Z.ltb_spec 0 time); [lia|]. done.
  - unfold handlers. destruct (asyncFn w).1 as [r|e] eqn:Ho.
    + exists [], (Fulfilled r). simpl. rewrite Ho. repeat split; lia || done.
    + destruct (Z.ltb_spec 0 time); [|lia].
      destruct (IH (time - 1) (asyncFn w).2 (seen ++ [Rejected e])) as
        (fails & o & Hseen & Hout & Hrej & Hlen & Hres); [lia|].
      exists (Rejected e :: fails), o. repeat split.
      * by rewrite Hseen, <- app_assoc.
      * simpl. rewrite Ho. f_equal. exact Hout.
      * exact Hrej.
      * simpl. lia.
      * destruct o; [done|]. destruct Hres as [-> <-]. done.
Qed.
End Retry.

(** C3: for a retry count [n >= 0], [executeWithRetry] calls the transport
    at most [n + 1] times, one call after the other; every call but the
    last was rejected; when the last call is fulfilled its response is the
    result, and when it is rejected exactly [n + 1] calls were made and its
    error is the result. *)
Theorem retry_count_honored {W} (asyncFn : W → outcome * W) (n : Z) (w : W) :
  0 <= n →
  ∃ fails o,
    (executeWithRetry asyncFn n w).2 = fails ++ [o]
    ∧ fails ++ [o] = outcomes asyncFn (S (length fails)) w
    ∧ Z.of_nat (length (fails ++ [o])) <= n + 1
    ∧ forallb is_rejected fails = true
    ∧ match o with
      | Fulfilled r => (executeWithRetry asyncFn n w).1.1 = (Some r, None)
      | Rejected e =>
          (executeWithRetry asyncFn n w).1.1 = (None, Some e)
          ∧ Z.of_nat (length (fails ++ [o])) = n + 1
      end.
Proof.
  intros Hn. unfold executeWithRetry.
  destruct (asyncFnWrap_spec asyncFn (Z.to_nat n) n w []) as
    (fails & o & Hseen & Hout & Hrej & Hlen & Hres); [lia|].
  exists fails, o. rewrite length_app. simpl.
  repeat split; try done; try lia.
  destruct o; [done|]. destruct Hres as [-> ?]. split; [done | lia].
Qed.

(** ** The claims on concrete hooks *)

(** While a request is loading, [cancel] returns at its first line, and so
    does the [cancel] that [execute] makes under [autoCancelLastReq]: no
    controller is aborted and one more call is in flight. *)
Lemma execute_while_loading U arg s :
  isLoading s = true →
  controllers (execute U arg s) = controllers s ++ [false]
  ∧ ∃ c, in_flight (execute U arg s) = in_flight s ++ [c].
Proof.
  intros Hl.
  assert (Hb : ∀ p s0, isLoading s0 = true →
            controllers (execute_body U p s0) = controllers s0 ++ [false]
            ∧ ∃ c, in_flight (execute_body U p s0) = in_flight s0 ++ [c]).
  { intros p s0 H0. unfold execute_body.
    replace (if autoCancelLastReq (options U) then cancel s0 else s0) with s0
      by (destruct (autoCancelLastReq (options U)); by rewrite ?cancel_while_loading).
    destruct (request_of U _ p _) as [[u t] h']. cbn -[omap]. split; [done|].
    unfold in_flight. cbn -[omap]. rewrite omap_app. simpl. eauto. }
  destruct arg; cbn [execute]; try by apply Hb.
  unfold defaultPayload. destruct (payload (options U)) as [v|f]; [by apply Hb|].
  destruct (f (heap s)) as [v h']. by apply (Hb v (emit PayloadProducer (set_heap h' s))).
Qed.

(** C1, on the code: with [autoCancelLastReq] on, a second [execute] while
    the first request is pending leaves two calls in flight, with the
    signals of controllers 0 and 1, neither of them aborted. *)
Theorem autoCancel_leaves_prior_call_in_flight :
  ∃ s, run (items true 0) [Execute VUndefined; Execute VUndefined]
         (useAxios (items true 0) []) = Some s
       ∧ signals s = [VSignal 0; VSignal 1]
       ∧ aborted s <$> signals s = [false; false].
Proof. eexists. split; [reflexivity|]. split; vm_compute; reflexivity. Qed.

(** C5, on the code: [urlParams] has both [id] and [pid], and the URL of the
    request still holds the second placeholder. *)
Theorem second_placeholder_not_replaced :
  get caller_heap (get caller_heap (VObj 2) "urlParams") "pid" = VStr "x"
  ∧ c_url <$> in_flight (execute posts (VObj 2) (useAxios posts caller_heap))
    = ["/users/7/posts/{pid}"].
Proof. split; vm_compute; reflexivity. Qed.

(** C9, on the code: [urlParams] has no [pid], and the placeholder [{pid}],
    which is not the leftmost one, is left in the URL as it is. *)
Theorem later_missing_key_left_intact :
  get caller_heap (get caller_heap (VObj 5) "urlParams") "pid" = VUndefined
  ∧ c_url <$> in_flight (execute posts (VObj 5) (useAxios posts caller_heap))
    = ["/users/7/posts/{pid}"].
Proof. split; vm_compute; reflexivity. Qed.

(** C8 as stated fails: two calls, the first one succeeds, [cancel()] aborts
    the controller of the second, the transport rejects it as canceled and
    [execute] returns [{ isCancel: true }]; [isLoading] is then false and
    [isFinished] true. *)
Lemma canceled_after_cancel_is_not_loading :
  ∃ s s',
    run (items false 0)
      [Execute VUndefined; Execute VUndefined; Settle 0 (Fulfilled ok_response); Cancel]
      (useAxios (items false 0) []) = Some s
    ∧ aborted s <$> signals s = [true]
    ∧ settle (items false 0) 1 (Rejected canceled_error) s = Some s'
    ∧ last (log s') = Some (Returned 1 canceled_return)
    ∧ ¬ (isLoading s' = true ∧ isFinished s' = false).
Proof.
  eexists _, _. split; [vm_compute; reflexivity|]. split; [vm_compute; reflexivity|].
  split; [vm_compute; reflexivity|]. split; [vm_compute; reflexivity|].
  vm_compute. intros [? _]. discriminate.
Qed.

(** C2 on a call of [items] that the transport rejects as canceled. *)
Lemma cancellation_not_stored_witness :
  let U := items false 0 in
  let s := execute U VUndefined (useAxios U []) in
  let c := {| c_url := "/items"; c_config := 2; time := 0 |} in
  calls s !! 0%nat = Some (Some c)
  ∧ handlers (time c) (Rejected canceled_error) = Resolve None (Some canceled_error)
  ∧ axios.isCancel (Some canceled_error) = true
  ∧ ∃ s' r, settle U 0 (Rejected canceled_error) s = Some s'
            ∧ error s' = error s
            ∧ last (log s') = Some (Returned 0 r)
            ∧ ExecuteReturn.isCancel r = true.
Proof.
  intros U s c.
  assert (H1 : calls s !! 0%nat = Some (Some c)) by (vm_compute; reflexivity).
  assert (H2 : handlers (time c) (Rejected canceled_error)
               = Resolve None (Some canceled_error)) by (vm_compute; reflexivity).
  assert (H3 : axios.isCancel (Some canceled_error) = true) by (vm_compute; reflexivity).
  exact (conj H1 (conj H2 (conj H3
    (cancellation_not_stored U 0 c (Rejected canceled_error) None
       (Some canceled_error) s H1 H2 H3)))).
Defined.

(** C8, amended, on the same call. *)
Lemma cancellation_returns_early_witness :
  let U := items false 0 in
  let s := execute U VUndefined (useAxios U []) in
  let c := {| c_url := "/items"; c_config := 2; time := 0 |} in
  calls s !! 0%nat = Some (Some c)
  ∧ handlers (time c) (Rejected canceled_error) = Resolve None (Some canceled_error)
  ∧ axios.isCancel (Some canceled_error) = true
  ∧ ∃ s', settle U 0 (Rejected canceled_error) s = Some s'
          ∧ response s' = response s ∧ data s' = data s ∧ error s' = error s
          ∧ isLoading s' = isLoading s ∧ isFinished s' = isFinished s
          ∧ log s' = log s ++ [Returned 0 canceled_return].
Proof.
  intros U s c.
  assert (H1 : calls s !! 0%nat = Some (Some c)) by (vm_compute; reflexivity).
  assert (H2 : handlers (time c) (Rejected canceled_error)
               = Resolve None (Some canceled_error)) by (vm_compute; reflexivity).
  assert (H3 : axios.isCancel (Some canceled_error) = true) by (vm_compute; reflexivity).
  exact (conj H1 (conj H2 (conj H3
    (cancellation_returns_early U 0 c (Rejected canceled_error) None
       (Some canceled_error) s H1 H2 H3)))).
Defined.

(** C3 on a transport that fails once and then answers, with two retries. *)
Lemma retry_count_honored_witness :
  0 <= 2
  ∧ ∃ fails o,
      (executeWithRetry scripted 2 [Rejected timeout_error; Fulfilled ok_response]).2
      = fails ++ [o]
      ∧ fails ++ [o]
        = outcomes scripted (S (length fails)) [Rejected timeout_error; Fulfilled ok_response]
      ∧ Z.of_nat (length (fails ++ [o])) <= 2 + 1
      ∧ forallb is_rejected fails = true
      ∧ match o with
        | Fulfilled r =>
            (executeWithRetry scripted 2
               [Rejected timeout_error; Fulfilled ok_response]).1.1 = (Some r, None)
        | Rejected e =>
            (executeWithRetry scripted 2
               [Rejected timeout_error; Fulfilled ok_response]).1.1 = (None, Some e)
            ∧ Z.of_nat (length (fails ++ [o])) = 2 + 1
        end.
Proof.
  assert (H : 0 <= 2) by lia.
  exact (conj H (retry_count_honored scripted 2
                   [Rejected timeout_error; Fulfilled ok_response] H)).
Defined.

(** C4 on a call of [items] with two retries: two timeouts, then a 500. *)
Lemma final_error_stored_once_witness :
  let U := items false 2 in
  let s := execute U VUndefined (useAxios U []) in
  let c := {| c_url := "/items"; c_config := 2; time := 2 |} in
  let errs := [timeout_error; timeout_error] in
  calls s !! 0%nat = Some (Some c)
  ∧ time c = Z.of_nat (length errs)
  ∧ canceled server_error = false
  ∧ (∀ k, (k ≤ length errs)%nat →
          ∃ sk, run U (rejections 0 (take k errs)) s = Some sk
                ∧ cells sk = cells s
                ∧ callbacks (log sk) = callbacks (log s))
  ∧ ∃ s', run U (rejections 0 (errs ++ [server_error])) s = Some s'
          ∧ error s' = Some server_error ∧ response s' = None
          ∧ callbacks (log s')
            = callbacks (log s)
              ++ (if onError (options U) then [OnError server_error] else [])
              ++ (if onFinish (options U) then [OnFinish] else []).
Proof.
  intros U s c errs.
  assert (H1 : calls s !! 0%nat = Some (Some c)) by (vm_compute; reflexivity).
  assert (H2 : time c = Z.of_nat (length errs)) by (vm_compute; reflexivity).
  assert (H3 : canceled server_error = false) by (vm_compute; reflexivity).
  exact (conj H1 (conj H2 (conj H3
    (final_error_stored_once U 0 errs server_error c s H1 H2 H3)))).
Defined.

(** C10 on [posts] and the payload in cell 2 of the caller's heap. *)
Lemma request_config_merges_witness :
  let U := posts in
  let p := VObj 2 in
  let s := useAxios posts caller_heap in
  closed (heap s) (config U)
  ∧ closed (heap s) p
  ∧ ∃ _url _config,
      last (log (execute_body U p s)) = Some (Request (length (calls s)) _url _config)
      ∧ _config = {[ "signal" := VSignal (length (controllers s)) ]}
                  ∪ (delete "urlParams" (props (heap s) p) ∪ props (heap s) (config U))
      ∧ (∀ k, k = "params" ∨ k = "data" →
              _config !! k = match props (heap s) p !! k with
                             | Some v => Some v
                             | None => props (heap s) (config U) !! k
                             end)
      ∧ take (length (heap s)) (heap (execute_body U p s)) = heap s
      ∧ props (heap (execute_body U p s)) (config U) = props (heap s) (config U)
      ∧ props (heap (execute_body U p s)) p = props (heap s) p.
Proof.
  intros U p s.
  assert (H1 : closed (heap s) (config U)) by (vm_compute; lia).
  assert (H2 : closed (heap s) p) by (vm_compute; lia).
  exact (conj H1 (conj H2 (request_config_merges U p s H1 H2))).
Defined.

(** * More of the hook *)

(** ** Completion of a call *)

Lemma settle_resolved U id c o res err s :
  calls s !! id = Some (Some c) →
  handlers (time c) o = Resolve res err →
  settle U id o s
  = Some (emit (Returned id (resume U res err (set_calls (<[id := None]> (calls s)) s)).2)
            (resume U res err (set_calls (<[id := None]> (calls s)) s)).1).
Proof.
  intros Hc Hh. unfold settle. rewrite Hc, Hh.
  by destruct (resume U res err _).
Qed.

(** X1: when the transport fulfils a call, at the first attempt or at a
    retry, the response and data cells take the response and its data, the
    error cell is cleared, [isLoading] is false and [isFinished] true; the
    effects are [onSuccess(data, res)], then [onFinish()] (each when given),
    then the return of [{ response, data, error: undefined, isCancel:
    false }]; the call is no longer suspended. *)
Theorem fulfilled_call_completes U id c res s :
  calls s !! id = Some (Some c) →
  ∃ s', settle U id (Fulfilled res) s = Some s'
        ∧ cells s' = (Some res, body res, None, false, true)
        ∧ log s' = log s
                   ++ (if onSuccess (options U) then [OnSuccess (body res) res] else [])
                   ++ (if onFinish (options U) then [OnFinish] else [])
                   ++ [Returned id
                         {| ExecuteReturn.response := Some res;
                            ExecuteReturn.data := body res;
                            ExecuteReturn.error := None;
                            ExecuteReturn.isCancel := false |}]
        ∧ calls s' = <[id := None]> (calls s)
        ∧ controllers s' = controllers s ∧ heap s' = heap s.
Proof.
  intros Hc. eexists. split.
  - by apply (settle_resolved U id c (Fulfilled res) (Some res) None).
  - unfold resume. cbn [axios.isCancel fst snd].
    destruct (onSuccess (options U)), (onFinish (options U)); cbn;
      rewrite <- ?app_assoc; done.
Qed.

(** X2: when a call with no retry left is rejected with an error that is no
    cancellation, the response and data cells are cleared, the error cell
    takes the error, [isLoading] is false and [isFinished] true; the effects
    are [onError(err)], then [onFinish()] (each when given), then the return
    of [{ response: undefined, data: undefined, error, isCancel: false }]. *)
Theorem failed_call_completes U id c e s :
  calls s !! id = Some (Some c) →
  time c <= 0 →
  canceled e = false →
  ∃ s', settle U id (Rejected e) s = Some s'
        ∧ cells s' = (None, VUndefined, Some e, false, true)
        ∧ log s' = log s
                   ++ (if onError (options U) then [OnError e] else [])
                   ++ (if onFinish (options U) then [OnFinish] else [])
                   ++ [Returned id
                         {| ExecuteReturn.response := None;
                            ExecuteReturn.data := VUndefined;
                            ExecuteReturn.error := Some e;
                            ExecuteReturn.isCancel := false |}]
        ∧ calls s' = <[id := None]> (calls s).
Proof.
  intros Hc Ht He. eexists. split; [by apply (settle_failed U id c)|].
  destruct (onError (options U)), (onFinish (options U)); cbn;
    rewrite <- ?app_assoc; done.
Qed.

(** X3: whenever the promise resolves without a cancellation, the object
    that [execute] returns has [isCancel] false and the very values that
    the response, data and error cells then hold, and the hook is finished
    and no longer loading. *)
Theorem completion_mirrors_cells U id c o res err s :
  calls s !! id = Some (Some c) →
  handlers (time c) o = Resolve res err →
  axios.isCancel err = false →
  ∃ s' r, settle U id o s = Some s'
          ∧ last (log s') = Some (Returned id r)
          ∧ ExecuteReturn.isCancel r = false
          ∧ ExecuteReturn.response r = response s'
          ∧ ExecuteReturn.data r = data s'
          ∧ ExecuteReturn.error r = error s'
          ∧ isLoading s' = false ∧ isFinished s' = true.
Proof.
  intros Hc Hh He. eexists _, _. split; [by eapply settle_resolved|].
  cbn [log emit]. rewrite last_snoc. split; [done|].
  unfold resume. rewrite He. cbn [fst snd].
  destruct res as [r|], err as [e|]; cbn;
    destruct (onSuccess (options U)), (onError (options U)), (onFinish (options U)); done.
Qed.

(** ** cancel *)

(** X5: while [isLoading] is true, [cancel()] changes nothing, and neither
    does unmounting the component: no controller is aborted. *)
Theorem loading_request_cannot_be_canceled U s :
  isLoading s = true →
  step U Cancel s = Some s ∧ step U Unmounted s = Some s.
Proof.
  intros Hl. simpl. rewrite (cancel_while_loading s Hl).
  split; [done|]. by destruct (_ && _).
Qed.

(** X6: calling [cancel()] twice is the same as calling it once. *)
Theorem cancel_idempotent s : cancel (cancel s) = cancel s.
Proof.
  unfold cancel. destruct (isLoading s) eqn:Hl; [by rewrite Hl|].
  cbn [isLoading set_isLoading]. unfold abort.
  destruct (controller s) as [c|] eqn:Hc; cbn; rewrite ?Hc; cbn; [|done].
  by rewrite list_insert_insert_eq.
Qed.

(** ** What holds in every state of a hook *)

Lemma run_invariant U (P : Hook → Prop) :
  (∀ e s s', P s → step U e s = Some s' → P s') →
  ∀ es s s', P s → run U es s = Some s' → P s'.
Proof.
  intros Hstep. induction es as [|e es IH]; intros s s' Hs Hrun; simpl in Hrun.
  - by injection Hrun as <-.
  - destruct (step U e s) as [s1|] eqn:He; [|done]. eauto.
Qed.

Lemma useAxios_setup U h :
  useAxios U h = if immediate (options U) then execute U VUndefined (setup h) else setup h.
Proof. reflexivity. Qed.

Lemma reachable_invariant U h (P : Hook → Prop) :
  P (setup h) →
  (∀ e s s', P s → step U e s = Some s' → P s') →
  ∀ s, reachable U h s → P s.
Proof.
  intros Hinit Hstep s [es Hrun].
  eapply (run_invariant U P Hstep); [|exact Hrun].
  rewrite useAxios_setup. destruct (immediate (options U)); [|done].
  by apply (Hstep (Execute VUndefined) (setup h)).
Qed.

Lemma settle_frame U id o s s' :
  settle U id o s = Some s' →
  controllers s' = controllers s ∧ controller s' = controller s
  ∧ length (calls s') = length (calls s) ∧ heap s' = heap s.
Proof.
  unfold settle. destruct (calls s !! id) as [[c|]|]; try done.
  destruct (handlers (time c) o) as [t|res err].
  - intros [= <-]. cbn. by rewrite length_insert.
  - unfold resume. destruct (axios.isCancel err).
    + intros [= <-]. cbn. by rewrite length_insert.
    + intros [= <-].
      destruct res as [r|], err as [e|]; cbn;
        destruct (onSuccess (options U)), (onError (options U)), (onFinish (options U));
        cbn; by rewrite length_insert.
Qed.

Lemma execute_body_calls_length U p s :
  length (calls (execute_body U p s)) = S (length (calls s)).
Proof.
  destruct (execute_body_request U p s) as (_ & _ & -> & _).
  rewrite length_app. simpl. lia.
Qed.

Lemma cancel_controller s : controller (cancel s) = controller s.
Proof.
  unfold cancel, abort. destruct (isLoading s); [done|].
  by destruct (controller s) eqn:Hk.
Qed.

Lemma cancel_latest s : latest_controller s → latest_controller (cancel s).
Proof.
  intros [Hlen Hc]. destruct (cancel_frame s) as (_ & Hcalls & _ & Hn).
  split; [congruence|]. by rewrite cancel_controller, Hn.
Qed.

(** Before its body, [execute] changes the heap and the log at most. *)
Lemma execute_is_body_on U arg s :
  ∃ p s0, execute U arg s = execute_body U p s0
          ∧ controllers s0 = controllers s ∧ controller s0 = controller s
          ∧ calls s0 = calls s ∧ cells s0 = cells s
          ∧ (log s0 = log s ∨ log s0 = log s ++ [PayloadProducer]).
Proof.
  destruct arg; cbn [execute]; try (eexists _, s; split; [done|]; auto 10).
  unfold defaultPayload. destruct (payload (options U)) as [v|f].
  - eexists _, s. split; [done|]. auto 10.
  - destruct (f (heap s)) as [v h']. eexists _, _. split; [done|]. cbn. auto 10.
Qed.

Lemma latest_controller_step U e s s' :
  latest_controller s → step U e s = Some s' → latest_controller s'.
Proof.
  intros Hs Hstep. destruct e as [arg| |id o|]; simpl in Hstep.
  - injection Hstep as <-. destruct Hs as [Hlen Hc].
    destruct (execute_is_body_on U arg s) as (p & s0 & -> & Hcs & _ & Hcl & _).
    destruct (execute_body_controller U p s0) as (H1 & _ & H3). cbv zeta in *.
    split.
    + rewrite H3, execute_body_calls_length. congruence.
    + by rewrite H1, H3.
  - injection Hstep as <-. by apply cancel_latest.
  - destruct Hs as [Hlen Hc].
    destruct (settle_frame U id o s s' Hstep) as (H1 & H2 & H3 & _).
    split; [congruence|]. by rewrite H1, H2.
  - destruct (_ && _); injection Hstep as <-; [by apply cancel_latest | done].
Qed.

Lemma reachable_latest_controller U h s : reachable U h s → latest_controller s.
Proof.
  apply reachable_invariant; [done|]. apply latest_controller_step.
Qed.

Lemma cancel_older_controller s c :
  latest_controller s → (S c < length (calls s))%nat →
  controllers (cancel s) !! c = controllers s !! c.
Proof.
  intros [Hlen Hctl] Hc. unfold cancel, abort. destruct (isLoading s); [done|].
  destruct (controller s) as [k|] eqn:Hk; [|done]. cbn.
  apply list_lookup_insert_ne.
  destruct (length (controllers s)) as [|n]; [done|].
  injection Hctl as ->. lia.
Qed.

(** X8: in every state of the hook, no event changes a controller other
    than the one of the most recent call: once a newer call has been made,
    the signal of an older one can never be aborted any more. *)
Theorem older_controller_never_aborted U h s e s' c :
  reachable U h s →
  step U e s = Some s' →
  (S c < length (calls s))%nat →
  controllers s' !! c = controllers s !! c.
Proof.
  intros Hr Hstep Hc.
  pose proof (reachable_latest_controller U h s Hr) as Hs.
  destruct e as [arg| |id o|]; simpl in Hstep.
  - injection Hstep as <-.
    destruct (execute_is_body_on U arg s) as (p & s0 & -> & Hcs & Hct & Hcl & _).
    assert (Hs0 : latest_controller s0) by (unfold latest_controller; by rewrite Hcs, Hct, Hcl).
    rewrite <- Hcs. rewrite <- Hcl in Hc. clear Hs Hcs Hct Hcl Hr.
    unfold execute_body.
    destruct (request_of U _ p _) as [[u t] h']. cbn.
    destruct Hs0 as [Hlen ?].
    destruct (cancel_frame s0) as (_ & _ & _ & Hn).
    rewrite lookup_app_l
      by (destruct (autoCancelLastReq (options U)); rewrite ?Hn; lia).
    destruct (autoCancelLastReq (options U)); [|done].
    by apply cancel_older_controller.
  - injection Hstep as <-. by apply cancel_older_controller.
  - destruct (settle_frame U id o s s' Hstep) as (-> & _). done.
  - destruct (_ && _); injection Hstep as <-; [by apply cancel_older_controller | done].
Qed.

(** X9: in every state of the hook, the next call of [execute] is call
    number [length (calls s)], the configuration it gives to the transport
    has the signal of the controller with that same number, and that
    controller is the shared one afterwards. *)
Theorem call_carries_its_own_signal U h s arg :
  reachable U h s →
  ∃ _url _config,
    last (log (execute U arg s)) = Some (Request (length (calls s)) _url _config)
    ∧ _config !! "signal" = Some (VSignal (length (calls s)))
    ∧ controller (execute U arg s) = Some (length (calls s)).
Proof.
  intros Hr. destruct (reachable_latest_controller U h s Hr) as [Hlen _].
  destruct (execute_is_body_on U arg s) as (p & s0 & -> & Hcs & _ & Hcl & _).
  destruct (execute_body_request U p s0) as (Hlog & _).
  destruct (execute_body_controller U p s0) as (Hc & _). cbv zeta in *.
  rewrite Hcs, Hlen in *. rewrite Hcl in *.
  eexists _, _. rewrite Hlog, last_snoc. split; [done|]. split; [|done].
  apply request_of_signal.
Qed.

(** X4: up to its [await], [execute] sets [isLoading] and clears
    [isFinished], leaves the response, data and error of the previous call
    in their cells, calls no callback, suspends one more call and calls the
    transport once for it. *)
Theorem execute_keeps_cells_while_loading U arg s :
  let s' := execute U arg s in
  isLoading s' = true ∧ isFinished s' = false
  ∧ response s' = response s ∧ data s' = data s ∧ error s' = error s
  ∧ length (calls s') = S (length (calls s))
  ∧ attempts (length (calls s)) s' = S (attempts (length (calls s)) s)
  ∧ callbacks (log s') = callbacks (log s).
Proof.
  cbv zeta.
  destruct (execute_is_body_on U arg s) as (p & s0 & -> & _ & _ & Hcl & Hce & Hlog).
  destruct (execute_body_request U p s0) as (Hl & _ & Hc & H1 & H2 & H3 & H4 & H5).
  cbv zeta in *. unfold cells in Hce. injection Hce as Hr Hd He _ _.
  rewrite H1, H2, H3, H4, H5, Hr, Hd, He, Hc, length_app, <- Hcl. simpl.
  repeat split; try done; try lia.
  - unfold attempts. rewrite Hl, List.filter_app, length_app. simpl.
    rewrite Nat.eqb_refl. simpl.
    destruct Hlog as [-> | ->]; rewrite ?List.filter_app, ?length_app; simpl; lia.
  - rewrite Hl, callbacks_app. simpl. rewrite app_nil_r.
    destruct Hlog as [-> | ->]; [done|]. rewrite callbacks_app. simpl. by rewrite app_nil_r.
Qed.

(** X7: with [autoCancelLastReq], an [execute] made while [isLoading] is
    false aborts the controller of the previous call before it makes its
    own, and aborts no other. *)
Theorem autoCancel_aborts_when_idle U arg s c :
  autoCancelLastReq (options U) = true →
  isLoading s = false →
  controller s = Some c →
  (c < length (controllers s))%nat →
  controllers (execute U arg s) = <[c := true]> (controllers s) ++ [false].
Proof.
  intros Ha Hl Hc Hlt.
  destruct (execute_is_body_on U arg s) as (p & s0 & -> & Hcs & Hct & _ & Hce & _).
  unfold cells in Hce. injection Hce as _ _ _ Hl0 _.
  unfold execute_body. rewrite Ha. unfold cancel, abort. rewrite Hl0, Hl, Hct, Hc.
  destruct (request_of U _ p _) as [[u t] h']. cbn. by rewrite Hcs.
Qed.

(** X14: with [immediate], [useAxios] makes one call of [execute] at setup:
    call 0 is suspended, has called the transport once, the hook is loading
    and controller 0 is the shared one; without it, nothing has happened. *)
Theorem useAxios_immediate U h :
  if immediate (options U)
  then length (calls (useAxios U h)) = 1%nat
       ∧ attempts 0 (useAxios U h) = 1%nat
       ∧ isLoading (useAxios U h) = true
       ∧ controller (useAxios U h) = Some 0%nat
  else useAxios U h = setup h.
Proof.
  rewrite useAxios_setup. destruct (immediate (options U)); [|done].
  destruct (execute_is_body_on U VUndefined (setup h)) as (p & s0 & -> & Hcs & _ & Hcl & _ & Hlog).
  destruct (execute_body_request U p s0) as (Hl & _ & Hc & H1 & _).
  destruct (execute_body_controller U p s0) as (Hk & _).
  cbv zeta in *. rewrite Hc, H1, Hk, Hcs, Hcl. cbn. repeat split.
  unfold attempts. rewrite Hl, Hcl, List.filter_app, length_app. cbn.
  destruct Hlog as [-> | ->]; done.
Qed.

(** ** The attempts of a call *)

Lemma attempts_emit id e s :
  attempts id (emit e s) = (attempts id s + if is_request_of id e then 1 else 0)%nat.
Proof.
  unfold attempts. cbn [log emit]. rewrite List.filter_app, length_app. simpl.
  by destruct (is_request_of id e).
Qed.

Lemma resume_attempts U res err s id :
  attempts id (resume U res err s).1 = attempts id s.
Proof.
  unfold resume, attempts. destruct (axios.isCancel err); [done|].
  destruct res as [r|], err as [e|]; cbn;
    destruct (onSuccess (options U)), (onError (options U)), (onFinish (options U));
    cbn; rewrite ?List.filter_app, ?length_app; simpl; lia.
Qed.

Lemma resume_calls U res err s : calls (resume U res err s).1 = calls s.
Proof.
  unfold resume. destruct (axios.isCancel err); [done|]. cbn [fst].
  destruct res as [r|], err as [e|]; cbn;
    by destruct (onSuccess (options U)), (onError (options U)), (onFinish (options U)).
Qed.

Lemma attempts_bounded_cancel n s : attempts_bounded n s → attempts_bounded n (cancel s).
Proof.
  intros H id. specialize (H id).
  destruct (cancel_frame s) as (_ & Hc & Hl & _).
  unfold attempts. by rewrite Hc, Hl.
Qed.

Lemma attempts_bounded_execute U arg s :
  0 <= retry (options U) →
  attempts_bounded (retry (options U)) s →
  attempts_bounded (retry (options U)) (execute U arg s).
Proof.
  intros Hn H.
  destruct (execute_is_body_on U arg s) as (p & s0 & -> & _ & _ & Hcl & _ & Hlog).
  assert (H0 : attempts_bounded (retry (options U)) s0).
  { intros id. specialize (H id). rewrite Hcl. unfold attempts in *.
    destruct Hlog as [-> | ->]; [done|].
    rewrite List.filter_app, length_app. simpl. by rewrite Nat.add_0_r. }
  clear H Hcl Hlog s. intros id. specialize (H0 id).
  destruct (execute_body_request U p s0) as (Hlog & _ & Hcalls & _). cbv zeta in *.
  unfold attempts in *. rewrite Hlog, Hcalls, List.filter_app, length_app. simpl.
  destruct (lt_eq_lt_dec id (length (calls s0))) as [[Hlt|Heq]|Hgt].
  - rewrite lookup_app_l by done.
    replace (length (calls s0) =? id)%nat with false by (symmetry; apply Nat.eqb_neq; lia).
    simpl. rewrite Nat.add_0_r. done.
  - subst id. rewrite list_lookup_middle by done. rewrite Nat.eqb_refl. simpl.
    rewrite lookup_ge_None_2 in H0 by lia. rewrite H0. simpl. lia.
  - rewrite lookup_ge_None_2 by (rewrite length_app; simpl; lia).
    rewrite lookup_ge_None_2 in H0 by lia.
    replace (length (calls s0) =? id)%nat with false by (symmetry; apply Nat.eqb_neq; lia).
    simpl. lia.
Qed.

Lemma attempts_bounded_settle U id o s s' :
  attempts_bounded (retry (options U)) s →
  settle U id o s = Some s' →
  attempts_bounded (retry (options U)) s'.
Proof.
  intros H Hs. unfold settle in Hs.
  destruct (calls s !! id) as [[c|]|] eqn:Hc; try done.
  pose proof (H id) as Hid. rewrite Hc in Hid. destruct Hid as [Ht Hsum].
  assert (Hlt : (id < length (calls s))%nat) by (eapply lookup_lt_Some, Hc).
  destruct (handlers (time c) o) as [t|res err] eqn:Hh.
  - injection Hs as <-. unfold handlers in Hh. destruct o as [r|e]; [done|].
    destruct (Z.ltb_spec 0 (time c)); [|done]. injection Hh as <-.
    intros j. specialize (H j). unfold invoke. rewrite attempts_emit.
    cbn [calls set_calls emit is_request_of].
    change (attempts j (set_calls _ s)) with (attempts j s).
    destruct (decide (j = id)) as [->|Hne].
    + rewrite list_lookup_insert_eq by done. rewrite Nat.eqb_refl. cbn. lia.
    + rewrite list_lookup_insert_ne by done.
      replace (id =? j)%nat with false by (symmetry; apply Nat.eqb_neq; lia).
      rewrite Nat.add_0_r. done.
  - destruct (resume U res err _) as [s1 r] eqn:Hres. injection Hs as <-.
    pose proof (resume_attempts U res err (set_calls (<[id:=None]> (calls s)) s)) as Ha.
    pose proof (resume_calls U res err (set_calls (<[id:=None]> (calls s)) s)) as Hcl.
    rewrite Hres in Ha, Hcl. cbn [fst] in Ha, Hcl.
    intros j. specialize (H j). rewrite attempts_emit. cbn [calls emit is_request_of].
    rewrite Nat.add_0_r, Ha, Hcl. cbn [calls set_calls].
    change (attempts j (set_calls _ s)) with (attempts j s).
    destruct (decide (j = id)) as [->|Hne].
    + rewrite list_lookup_insert_eq by done. lia.
    + rewrite list_lookup_insert_ne by done. done.
Qed.

(** X10: for a retry count [n >= 0], whatever the order of calls, cancels
    and outcomes, no call of [execute] ever calls the transport more than
    [n + 1] times. *)
Theorem attempts_never_exceed_retry U h s id :
  0 <= retry (options U) →
  reachable U h s →
  Z.of_nat (attempts id s) <= retry (options U) + 1.
Proof.
  intros Hn Hr.
  assert (H : attempts_bounded (retry (options U)) s).
  { revert s Hr. apply reachable_invariant.
    - intros j. done.
    - intros e s s' Hs Hstep. destruct e as [arg| |j o|]; simpl in Hstep.
      + injection Hstep as <-. by apply attempts_bounded_execute.
      + injection Hstep as <-. by apply attempts_bounded_cancel.
      + by eapply attempts_bounded_settle.
      + destruct (_ && _); injection Hstep as <-; [by apply attempts_bounded_cancel | done]. }
  specialize (H id). destruct (calls s !! id) as [[c|]|]; lia.
Qed.

(** X11: with a retry count of zero or less, [executeWithRetry] calls the
    transport exactly once and resolves with its outcome. *)
Theorem no_retry_without_positive_count {W} (asyncFn : W → outcome * W) (n : Z) (w : W) :
  n <= 0 →
  executeWithRetry asyncFn n w
  = (match (asyncFn w).1 with
     | Fulfilled res => (Some res, None)
     | Rejected err => (None, Some err)
     end, (asyncFn w).2, [(asyncFn w).1]).
Proof.
  intros Hn. unfold executeWithRetry. rewrite asyncFnWrap_step. unfold handlers.
  destruct (asyncFn w).1 as [r|e]; [done|].
  by destruct (Z.ltb_spec 0 n); [lia|].
Qed.

(** X12: a cancellation does not stop the retry loop.  A call with
    [length errs] retries left whose attempts are all rejected, the last
    one as canceled, calls the transport again after each rejection but the
    last, with the same URL and the same config object, and only then
    returns [{ isCancel: true }]; the cells are left as they were. *)
Theorem canceled_call_uses_up_its_retries U id errs e : ∀ c s,
  calls s !! id = Some (Some c) →
  time c = Z.of_nat (length errs) →
  canceled e = true →
  ∃ s', run U (rejections id (errs ++ [e])) s = Some s'
        ∧ log s' = log s
                   ++ replicate (length errs)
                        (Request id (c_url c) (props (heap s) (VObj (c_config c))))
                   ++ [Returned id canceled_return]
        ∧ cells s' = cells s.
Proof.
  induction errs as [|e0 errs IH]; intros c s Hc Ht He.
  - simpl.
    rewrite (settle_canceled U id c (Rejected e) None (Some e) s Hc); [| |done].
    + eexists. split; [done|]. done.
    + unfold handlers. simpl in Ht. rewrite Ht. done.
  - pose proof (settle_retry U id c e0 s Hc ltac:(simpl in Ht; lia)) as Hs.
    cbv zeta in Hs.
    set (c' := {| c_url := c_url c; c_config := c_config c; time := time c - 1 |}) in *.
    set (s1 := invoke id c' (set_calls (<[id := Some c']> (calls s)) s)) in *.
    assert (Hc1 : calls s1 !! id = Some (Some c')).
    { simpl. apply list_lookup_insert_eq. eapply lookup_lt_Some, Hc. }
    assert (Ht1 : time c' = Z.of_nat (length errs)) by (simpl in *; lia).
    destruct (IH c' s1 Hc1 Ht1 He) as (s' & Hrun & Hl & Hce).
    exists s'. simpl. rewrite Hs. split; [done|].
    rewrite Hl, Hce. split; [|done]. cbn. by rewrite <- app_assoc.
Qed.

(** ** The two views of the retry loop *)

Lemma settle_resolve_returns U id c o res err s :
  calls s !! id = Some (Some c) →
  handlers (time c) o = Resolve res err →
  ∃ s' r,
    settle U id o s = Some s'
    ∧ last (log s') = Some (Returned id r)
    ∧ calls s' !! id = Some None
    ∧ ExecuteReturn.isCancel r = axios.isCancel err
    ∧ (axios.isCancel err = false →
       ExecuteReturn.response r = res ∧ ExecuteReturn.error r = err
       ∧ response s' = res ∧ error s' = err).
Proof.
  intros Hc Hh. eexists _, _. split; [by eapply settle_resolved|].
  cbn [log emit calls]. rewrite last_snoc, resume_calls. cbn [calls set_calls].
  split; [done|]. split; [apply list_lookup_insert_eq; eapply lookup_lt_Some, Hc|].
  unfold resume. destruct (axios.isCancel err); [done|]. split; [done|]. intros _.
  destruct res as [r|], err as [e|]; cbn;
    by destruct (onSuccess (options U)), (onError (options U)), (onFinish (options U)).
Qed.

Section Simulation.
Context {W : Type} (asyncFn : W → outcome * W).

Lemma asyncFnWrap_simulated U id n : ∀ t w acc c s,
  Z.to_nat t = n →
  calls s !! id = Some (Some c) → time c = t →
  ∃ new s' r,
    (asyncFnWrap asyncFn t w acc).2 = acc ++ new
    ∧ run U (deliveries id new) s = Some s'
    ∧ last (log s') = Some (Returned id r)
    ∧ calls s' !! id = Some None
    ∧ ExecuteReturn.isCancel r = axios.isCancel (asyncFnWrap asyncFn t w acc).1.1.2
    ∧ (axios.isCancel (asyncFnWrap asyncFn t w acc).1.1.2 = false →
       ExecuteReturn.response r = (asyncFnWrap asyncFn t w acc).1.1.1
       ∧ ExecuteReturn.error r = (asyncFnWrap asyncFn t w acc).1.1.2
       ∧ response s' = (asyncFnWrap asyncFn t w acc).1.1.1
       ∧ error s' = (asyncFnWrap asyncFn t w acc).1.1.2).
Proof.
  assert (Hres : ∀ t w acc c s res err,
    calls s !! id = Some (Some c) → time c = t →
    handlers t (asyncFn w).1 = Resolve res err →
    ∃ new s' r,
      (res, err, (asyncFn w).2, acc ++ [(asyncFn w).1]).2 = acc ++ new
      ∧ run U (deliveries id new) s = Some s'
      ∧ last (log s') = Some (Returned id r)
      ∧ calls s' !! id = Some None
      ∧ ExecuteReturn.isCancel r = axios.isCancel err
      ∧ (axios.isCancel err = false →
         ExecuteReturn.response r = res ∧ ExecuteReturn.error r = err
         ∧ response s' = res ∧ error s' = err)).
  { intros t w acc c s res err Hc Ht Hh. subst t.
    destruct (settle_resolve_returns U id c _ res err s Hc Hh) as (s' & r & Hs & H).
    exists [(asyncFn w).1], s', r. split; [done|]. split; [|exact H].
    simpl. by rewrite Hs. }
  induction n as [|n IH]; intros t w acc c s Hn Hc Ht; rewrite asyncFnWrap_step;
    destruct (handlers t (asyncFn w).1) as [t'|res err] eqn:Hh;
    try (by eapply Hres).
  - unfold handlers in Hh. destruct (asyncFn w).1; [done|].
    destruct (Z.ltb_spec 0 t); [lia | done].
  - unfold handlers in Hh. destruct (asyncFn w).1 as [|e] eqn:Ho; [done|].
    destruct (Z.ltb_spec 0 t); [|done]. injection Hh as <-. subst t.
    pose proof (settle_retry U id c e s Hc ltac:(done)) as Hs. cbv zeta in Hs.
    set (c' := {| c_url := c_url c; c_config := c_config c; time := time c - 1 |}) in *.
    set (s1 := invoke id c' (set_calls (<[id := Some c']> (calls s)) s)) in *.
    assert (Hc1 : calls s1 !! id = Some (Some c')).
    { simpl. apply list_lookup_insert_eq. eapply lookup_lt_Some, Hc. }
    destruct (IH (time c - 1) (asyncFn w).2 (acc ++ [Rejected e]) c' s1)
      as (new & s' & r & Hseen & Hrun & Hrest); [lia | done | done |].
    exists (Rejected e :: new), s', r.
    split; [by rewrite Hseen, <- app_assoc|]. split; [|exact Hrest].
    simpl. by rewrite Hs.
Qed.
End Simulation.

(** X13: the hook and [executeWithRetry] agree.  Delivering to a suspended
    call the outcomes that [executeWithRetry] sees from a transport makes
    the call return; its [isCancel] tells whether the error that
    [executeWithRetry] resolves with is a cancellation, and otherwise the
    returned response and error, and the response and error cells, are the
    ones [executeWithRetry] resolves with. *)
Theorem execute_returns_what_executeWithRetry_resolves
    {W} (asyncFn : W → outcome * W) (w : W) U id c s :
  calls s !! id = Some (Some c) →
  ∃ s' r,
    run U (deliveries id (executeWithRetry asyncFn (time c) w).2) s = Some s'
    ∧ last (log s') = Some (Returned id r)
    ∧ calls s' !! id = Some None
    ∧ ExecuteReturn.isCancel r
      = axios.isCancel (executeWithRetry asyncFn (time c) w).1.1.2
    ∧ (axios.isCancel (executeWithRetry asyncFn (time c) w).1.1.2 = false →
       ExecuteReturn.response r = (executeWithRetry asyncFn (time c) w).1.1.1
       ∧ ExecuteReturn.error r = (executeWithRetry asyncFn (time c) w).1.1.2
       ∧ response s' = (executeWithRetry asyncFn (time c) w).1.1.1
       ∧ error s' = (executeWithRetry asyncFn (time c) w).1.1.2).
Proof.
  intros Hc. unfold executeWithRetry.
  destruct (asyncFnWrap_simulated asyncFn U id (Z.to_nat (time c)) (time c) w [] c s)
    as (new & s' & r & Hseen & Hrun & H); [done..|].
  exists s', r. rewrite Hseen. simpl. done.
Qed.

(** ** The URL of a request *)

Lemma span_word_spec s :
  s = (span_word s).1 +:+ (span_word s).2 ∧ all_word (span_word s).1 = true.
Proof.
  induction s as [|c s [IH1 IH2]]; [done|]. simpl.
  destruct (is_word c) eqn:Hc; [|done].
  destruct (span_word s) as [w rest]. simpl in *.
  rewrite Hc, IH2. split; [|done]. rewrite append_cons. by f_equal.
Qed.

Lemma match_here_spec s key rest :
  match_here s = Some (key, rest) →
  s = placeholder "" key rest ∧ key ≠ "" ∧ all_word key = true.
Proof.
  unfold match_here. destruct s as [|c s]; [done|].
  destruct (Ascii.eqb c "{") eqn:Hc.
  - apply Ascii.eqb_eq in Hc as ->.
    destruct (span_word_spec s) as [Hs Hw].
    destruct (span_word s) as [[|k w] [|b r]]; try done. simpl in *.
    destruct (Ascii.eqb b "}") eqn:Hb.
    + apply Ascii.eqb_eq in Hb as ->. intros [= <- <-].
      unfold placeholder. rewrite append_nil. split; [by rewrite Hs|]. done.
    + destruct b as [[] [] [] [] [] [] [] []]; done.
  - destruct c as [[] [] [] [] [] [] [] []]; done.
Qed.

Lemma placeholder_cons c pre key post :
  String c (placeholder pre key post) = placeholder (String c pre) key post.
Proof. reflexivity. Qed.

(** X15: [isDynamicURL] is true exactly for the URLs of the form
    [pre{key}post] with [key] a non-empty string of letters, digits and
    underscores. *)
Theorem isDynamicURL_iff U :
  isDynamicURL U = true
  ↔ ∃ pre key post, url U = placeholder pre key post ∧ key ≠ "" ∧ all_word key = true.
Proof.
  unfold isDynamicURL. split.
  - induction (url U) as [|c s IH]; [done|]. rewrite test_unfold.
    destruct (match_here (String c s)) as [[key rest]|] eqn:Hm.
    + intros _. apply match_here_spec in Hm as (? & ? & ?). by exists "", key, rest.
    + intros (pre & key & post & -> & ? & ?)%IH.
      exists (String c pre), key, post. by rewrite placeholder_cons.
  - intros (pre & key & post & -> & ? & ?). by apply test_placeholder.
Qed.

(** The URL that [execute_body] computes is [request_url] on the
    [urlParams] of the payload, read in the heap of the caller. *)
Lemma execute_body_url U p s :
  closed (heap s) (get (heap s) p "urlParams") →
  ∃ h2 _config,
    last (log (execute_body U p s))
    = Some (Request (length (calls s))
              (request_url U h2 (get (heap s) p "urlParams")) _config)
    ∧ ∀ key, get h2 (get (heap s) p "urlParams") key
             = get (heap s) (get (heap s) p "urlParams") key.
Proof.
  intros Hcl.
  destruct (execute_body_request U p s) as (Hlog & _). cbv zeta in Hlog.
  destruct (request_of_unfold U (length (controllers s)) p (heap s))
    as (h1 & src & Hsrc & Hreq). cbv zeta in Hreq.
  rewrite Hreq in Hlog. cbn [fst snd] in Hlog.
  assert (Hup : get h1 src "urlParams" = get (heap s) p "urlParams").
  { destruct Hsrc as [(_ & -> & ->)|(Hn & -> & ->)]; [done|].
    rewrite (get_nullish _ _ _ Hn). unfold get. simpl.
    by rewrite list_lookup_middle. }
  assert (∃ k, h1 = heap s ++ k) as [k Hk].
  { destruct Hsrc as [(_ & -> & _)|(_ & -> & _)]; [exists []; by rewrite app_nil_r | eauto]. }
  rewrite Hup in Hlog. eexists _, _. rewrite Hlog, last_snoc. split; [done|].
  intros key. apply get_props. subst h1. rewrite <- (assoc_L (++)).
  by rewrite props_app.
Qed.

(** X16: when the URL has no placeholder, or the payload has no (truthy)
    [urlParams] (as when there is no payload at all), the request goes to
    the URL as it was given, placeholders included. *)
Theorem url_sent_as_it_is U p s :
  isDynamicURL U = false ∨ truthy (get (heap s) p "urlParams") = false →
  ∃ _config,
    last (log (execute_body U p s)) = Some (Request (length (calls s)) (url U) _config).
Proof.
  intros H.
  destruct (execute_body_request U p s) as (Hlog & _). cbv zeta in Hlog.
  destruct (request_of_unfold U (length (controllers s)) p (heap s))
    as (h1 & src & Hsrc & Hreq). cbv zeta in Hreq.
  rewrite Hreq in Hlog. cbn [fst snd] in Hlog.
  assert (Hup : get h1 src "urlParams" = get (heap s) p "urlParams").
  { destruct Hsrc as [(_ & -> & ->)|(Hn & -> & ->)]; [done|].
    rewrite (get_nullish _ _ _ Hn). unfold get. simpl.
    by rewrite list_lookup_middle. }
  rewrite Hup in Hlog. eexists. rewrite Hlog, last_snoc.
  unfold request_url. destruct H as [-> | ->]; [done|]. by rewrite andb_false_r.
Qed.

(** X17: the [isDynamicURL] test is a shortcut only: with [urlParams] given,
    the URL of the request is [url.replace(...)] whether or not the URL is
    templated. *)
Theorem request_url_is_replace U h urlParams :
  truthy urlParams = true →
  request_url U h urlParams
  = replace (λ key, String_ (get h urlParams key)) (url U).
Proof.
  intros Ht. unfold request_url, isDynamicURL. rewrite Ht, andb_true_r.
  destruct (test (url U)) eqn:Hd; [done|]. by rewrite replace_static.
Qed.

(** X18: for a URL [pre{key}post] with no brace in [pre] and a payload
    whose [urlParams] is an object of the heap, the request goes to [pre],
    then the string form of [urlParams[key]], then [post] as it is. *)
Theorem leftmost_placeholder_replaced U p s l pre key post :
  url U = placeholder pre key post →
  no_brace pre = true → key ≠ "" → all_word key = true →
  get (heap s) p "urlParams" = VObj l → (l < length (heap s))%nat →
  ∃ _config,
    last (log (execute_body U p s))
    = Some (Request (length (calls s))
              (pre +:+ String_ (get (heap s) (VObj l) key) +:+ post) _config).
Proof.
  intros Hu Hp Hk Hw Hup Hl.
  destruct (execute_body_url U p s) as (h2 & cfg & Hlog & Hget).
  { by rewrite Hup. }
  rewrite Hup in *. exists cfg. rewrite Hlog. do 2 f_equal.
  rewrite (request_url_leftmost U h2 l pre key post) by done. by rewrite Hget.
Qed.


(** A key that [urlParams] does not have but inherits is found: the
    placeholder [{constructor}] is replaced by the text of [Object]. *)
Example inherited_key_is_found :
  request_url {| url := "/x/{constructor}"; config := VUndefined;
                 options := sample_options false 0; getCurrentInstance := false |}
    [ {[ "id" := VNum (1 ↾ I) ]} ] (VObj 0)
  = "/x/function Object() { [native code] }".
Proof. vm_compute. reflexivity. Qed.

(** ** The payload of a call *)

Lemma replace_ext f g s : (∀ key, f key = g key) → replace f s = replace g s.
Proof.
  intros Hfg. induction s as [|c s IH]; [done|].
  rewrite (replace_unfold f), (replace_unfold g).
  destruct (match_here (String c s)) as [[key rest]|]; [by rewrite Hfg | by rewrite IH].
Qed.

Lemma request_url_ext U h k v :
  (∀ key, get h v key = get k v key) → request_url U h v = request_url U k v.
Proof.
  intros H. unfold request_url. destruct (_ && _); [|done].
  apply replace_ext. intros key. by rewrite H.
Qed.

(** The request that [execute_body] logs, read in the heap of the caller. *)
Lemma execute_body_log U p s :
  closed (heap s) (config U) → closed (heap s) p →
  closed (heap s) (get (heap s) p "urlParams") →
  log (execute_body U p s)
  = log s ++ [Request (length (calls s))
                (request_url U (heap s) (get (heap s) p "urlParams"))
                ({[ "signal" := VSignal (length (controllers s)) ]}
                 ∪ (delete "urlParams" (props (heap s) p) ∪ props (heap s) (config U)))].
Proof.
  intros Hc Hp Hu.
  destruct (execute_body_request U p s) as (Hlog & _). cbv zeta in Hlog.
  rewrite Hlog, (request_of_merge _ _ _ _ Hc Hp). do 3 f_equal.
  destruct (execute_body_url U p s Hu) as (h2 & cfg & Hlast & Hget).
  rewrite Hlog, last_snoc in Hlast. injection Hlast as -> _.
  by apply request_url_ext.
Qed.

(** C7, as amended: the request that [execute] makes is built from the
    payload by the rule, its URL from the [urlParams] of that payload and
    its configuration from the rest of it: the argument when one other than
    [undefined] is passed, and otherwise, also for an explicit [undefined],
    the configured payload, which is called first when it is a function.
    The producer is called, once, in that last case only. *)
Theorem payload_reaches_the_request U a s :
  let p := (payload_by_rule U a (heap s)).1.1 in
  let h := (payload_by_rule U a (heap s)).1.2 in
  let produced := (payload_by_rule U a (heap s)).2 in
  closed h (config U) → closed h p → closed h (get h p "urlParams") →
  log (execute U (passed a) s)
  = log s ++ produced
    ++ [Request (length (calls s))
          (request_url U h (get h p "urlParams"))
          ({[ "signal" := VSignal (length (controllers s)) ]}
           ∪ (delete "urlParams" (props h p) ∪ props h (config U)))].
Proof.
  assert (Hdef : ∀ v, v = VUndefined →
    let p := (payload_by_rule U NoArgument (heap s)).1.1 in
    let h := (payload_by_rule U NoArgument (heap s)).1.2 in
    let produced := (payload_by_rule U NoArgument (heap s)).2 in
    closed h (config U) → closed h p → closed h (get h p "urlParams") →
    log (execute U v s)
    = log s ++ produced
      ++ [Request (length (calls s))
            (request_url U h (get h p "urlParams"))
            ({[ "signal" := VSignal (length (controllers s)) ]}
             ∪ (delete "urlParams" (props h p) ∪ props h (config U)))]).
  { intros v ->. cbn [execute payload_by_rule]. unfold defaultPayload.
    destruct (payload (options U)) as [d|f]; cbn [fst snd]; intros Hc Hp Hu.
    - by rewrite execute_body_log.
    - destruct (f (heap s)) as [d h'] eqn:Hf. cbn [fst snd] in *.
      rewrite execute_body_log by done. cbn. by rewrite <- app_assoc. }
  destruct a as [|v]; [by apply Hdef|].
  cbn [passed payload_by_rule]. destruct (decide (v = VUndefined)) as [Hv|Hv].
  - by apply Hdef.
  - cbn [fst snd]. intros Hc Hp Hu.
    replace (execute U v s) with (execute_body U v s) by (by destruct v).
    by rewrite execute_body_log.
Qed.

(** ** The properties on concrete hooks *)

(** X1 on the first call of [items], fulfilled. *)
Lemma fulfilled_call_completes_witness :
  let U := items false 0 in
  let s := execute U VUndefined (useAxios U []) in
  let c := {| c_url := "/items"; c_config := 2; time := 0 |} in
  calls s !! 0%nat = Some (Some c)
  ∧ ∃ s', settle U 0 (Fulfilled ok_response) s = Some s'
          ∧ cells s' = (Some ok_response, body ok_response, None, false, true)
          ∧ log s' = log s
                     ++ (if onSuccess (options U)
                         then [OnSuccess (body ok_response) ok_response] else [])
                     ++ (if onFinish (options U) then [OnFinish] else [])
                     ++ [Returned 0
                           {| ExecuteReturn.response := Some ok_response;
                              ExecuteReturn.data := body ok_response;
                              ExecuteReturn.error := None;
                              ExecuteReturn.isCancel := false |}]
          ∧ calls s' = <[0%nat := None]> (calls s)
          ∧ controllers s' = controllers s ∧ heap s' = heap s.
Proof.
  intros U s c.
  assert (H1 : calls s !! 0%nat = Some (Some c)) by (vm_compute; reflexivity).
  exact (conj H1 (fulfilled_call_completes U 0 c ok_response s H1)).
Defined.

(** X2 on the first call of [items], rejected with a 500. *)
Lemma failed_call_completes_witness :
  let U := items false 0 in
  let s := execute U VUndefined (useAxios U []) in
  let c := {| c_url := "/items"; c_config := 2; time := 0 |} in
  calls s !! 0%nat = Some (Some c)
  ∧ time c <= 0
  ∧ canceled server_error = false
  ∧ ∃ s', settle U 0 (Rejected server_error) s = Some s'
          ∧ cells s' = (None, VUndefined, Some server_error, false, true)
          ∧ log s' = log s
                     ++ (if onError (options U) then [OnError server_error] else [])
                     ++ (if onFinish (options U) then [OnFinish] else [])
                     ++ [Returned 0
                           {| ExecuteReturn.response := None;
                              ExecuteReturn.data := VUndefined;
                              ExecuteReturn.error := Some server_error;
                              ExecuteReturn.isCancel := false |}]
          ∧ calls s' = <[0%nat := None]> (calls s).
Proof.
  intros U s c.
  assert (H1 : calls s !! 0%nat = Some (Some c)) by (vm_compute; reflexivity).
  assert (H2 : time c <= 0) by (simpl; lia).
  assert (H3 : canceled server_error = false) by reflexivity.
  exact (conj H1 (conj H2 (conj H3 (failed_call_completes U 0 c server_error s H1 H2 H3)))).
Defined.

(** X3 on the first call of [items], fulfilled. *)
Lemma completion_mirrors_cells_witness :
  let U := items false 0 in
  let s := execute U VUndefined (useAxios U []) in
  let c := {| c_url := "/items"; c_config := 2; time := 0 |} in
  calls s !! 0%nat = Some (Some c)
  ∧ handlers (time c) (Fulfilled ok_response) = Resolve (Some ok_response) None
  ∧ axios.isCancel None = false
  ∧ ∃ s' r, settle U 0 (Fulfilled ok_response) s = Some s'
            ∧ last (log s') = Some (Returned 0 r)
            ∧ ExecuteReturn.isCancel r = false
            ∧ ExecuteReturn.response r = response s'
            ∧ ExecuteReturn.data r = data s'
            ∧ ExecuteReturn.error r = error s'
            ∧ isLoading s' = false ∧ isFinished s' = true.
Proof.
  intros U s c.
  assert (H1 : calls s !! 0%nat = Some (Some c)) by (vm_compute; reflexivity).
  assert (H2 : handlers (time c) (Fulfilled ok_response) = Resolve (Some ok_response) None)
    by reflexivity.
  assert (H3 : axios.isCancel None = false) by reflexivity.
  exact (conj H1 (conj H2 (conj H3
    (completion_mirrors_cells U 0 c (Fulfilled ok_response) (Some ok_response) None s
       H1 H2 H3)))).
Defined.

(** X5 on [items] while its first call is pending. *)
Lemma loading_request_cannot_be_canceled_witness :
  let U := items false 0 in
  let s := execute U VUndefined (useAxios U []) in
  isLoading s = true
  ∧ step U Cancel s = Some s ∧ step U Unmounted s = Some s.
Proof.
  intros U s.
  assert (H1 : isLoading s = true) by (vm_compute; reflexivity).
  exact (conj H1 (loading_request_cannot_be_canceled U s H1)).
Defined.

(** X7: the second call is pending, the first has succeeded, and a third
    call aborts controller 1. *)
Lemma autoCancel_aborts_when_idle_witness :
  let U := items true 0 in
  let s := second_call_pending true in
  autoCancelLastReq (options U) = true
  ∧ isLoading s = false
  ∧ controller s = Some 1%nat
  ∧ (1 < length (controllers s))%nat
  ∧ controllers (execute U VUndefined s) = <[1%nat := true]> (controllers s) ++ [false].
Proof.
  intros U s.
  assert (H1 : autoCancelLastReq (options U) = true) by reflexivity.
  assert (H2 : isLoading s = false) by (vm_compute; reflexivity).
  assert (H3 : controller s = Some 1%nat) by (vm_compute; reflexivity).
  assert (H4 : (1 < length (controllers s))%nat) by (vm_compute; lia).
  exact (conj H1 (conj H2 (conj H3 (conj H4
    (autoCancel_aborts_when_idle U VUndefined s 1 H1 H2 H3 H4))))).
Defined.

(** X8: [cancel()] with the second call pending leaves controller 0 alone. *)
Lemma older_controller_never_aborted_witness :
  let U := items false 0 in
  let s := second_call_pending false in
  reachable U [] s
  ∧ step U Cancel s = Some (cancel s)
  ∧ (1 < length (calls s))%nat
  ∧ controllers (cancel s) !! 0%nat = controllers s !! 0%nat.
Proof.
  intros U s.
  assert (H1 : reachable U [] s).
  { exists [Execute VUndefined; Execute VUndefined; Settle 0 (Fulfilled ok_response)].
    vm_compute. reflexivity. }
  assert (H2 : step U Cancel s = Some (cancel s)) by reflexivity.
  assert (H3 : (1 < length (calls s))%nat) by (vm_compute; lia).
  exact (conj H1 (conj H2 (conj H3
    (older_controller_never_aborted U [] s Cancel (cancel s) 0 H1 H2 H3)))).
Defined.

(** X9 in the same state: the third call is call 2 with signal 2. *)
Lemma call_carries_its_own_signal_witness :
  let U := items false 0 in
  let s := second_call_pending false in
  reachable U [] s
  ∧ ∃ _url _config,
      last (log (execute U VUndefined s)) = Some (Request (length (calls s)) _url _config)
      ∧ _config !! "signal" = Some (VSignal (length (calls s)))
      ∧ controller (execute U VUndefined s) = Some (length (calls s)).
Proof.
  intros U s.
  assert (H1 : reachable U [] s).
  { exists [Execute VUndefined; Execute VUndefined; Settle 0 (Fulfilled ok_response)].
    vm_compute. reflexivity. }
  exact (conj H1 (call_carries_its_own_signal U [] s VUndefined H1)).
Defined.

(** X10 in the same state, for call 1. *)
Lemma attempts_never_exceed_retry_witness :
  let U := items false 0 in
  let s := second_call_pending false in
  0 <= retry (options U)
  ∧ reachable U [] s
  ∧ Z.of_nat (attempts 1 s) <= retry (options U) + 1.
Proof.
  intros U s.
  assert (H0 : 0 <= retry (options U)) by (simpl; lia).
  assert (H1 : reachable U [] s).
  { exists [Execute VUndefined; Execute VUndefined; Settle 0 (Fulfilled ok_response)].
    vm_compute. reflexivity. }
  exact (conj H0 (conj H1 (attempts_never_exceed_retry U [] s 1 H0 H1))).
Defined.

(** X11 with a count of -1 on a transport that fails first. *)
Lemma no_retry_without_positive_count_witness :
  let w := [Rejected timeout_error; Fulfilled ok_response] in
  -1 <= 0
  ∧ executeWithRetry scripted (-1) w
    = (match (scripted w).1 with
       | Fulfilled res => (Some res, None)
       | Rejected err => (None, Some err)
       end, (scripted w).2, [(scripted w).1]).
Proof.
  intros w.
  assert (H : -1 <= 0) by lia.
  exact (conj H (no_retry_without_positive_count scripted (-1) w H)).
Defined.

(** X12 on a call of [items] with two retries, canceled three times. *)
Lemma canceled_call_uses_up_its_retries_witness :
  let U := items false 2 in
  let s := execute U VUndefined (useAxios U []) in
  let c := {| c_url := "/items"; c_config := 2; time := 2 |} in
  let errs := [canceled_error; canceled_error] in
  calls s !! 0%nat = Some (Some c)
  ∧ time c = Z.of_nat (length errs)
  ∧ canceled canceled_error = true
  ∧ ∃ s', run U (rejections 0 (errs ++ [canceled_error])) s = Some s'
          ∧ log s' = log s
                     ++ replicate (length errs)
                          (Request 0 (c_url c) (props (heap s) (VObj (c_config c))))
                     ++ [Returned 0 canceled_return]
          ∧ cells s' = cells s.
Proof.
  intros U s c errs.
  assert (H1 : calls s !! 0%nat = Some (Some c)) by (vm_compute; reflexivity).
  assert (H2 : time c = Z.of_nat (length errs)) by reflexivity.
  assert (H3 : canceled canceled_error = true) by reflexivity.
  exact (conj H1 (conj H2 (conj H3
    (canceled_call_uses_up_its_retries U 0 errs canceled_error c s H1 H2 H3)))).
Defined.

(** X13 on a call of [items] with two retries and a transport that fails
    once. *)
Lemma execute_returns_what_executeWithRetry_resolves_witness :
  let U := items false 2 in
  let s := execute U VUndefined (useAxios U []) in
  let c := {| c_url := "/items"; c_config := 2; time := 2 |} in
  let w := [Rejected timeout_error; Fulfilled ok_response] in
  calls s !! 0%nat = Some (Some c)
  ∧ ∃ s' r,
      run U (deliveries 0 (executeWithRetry scripted (time c) w).2) s = Some s'
      ∧ last (log s') = Some (Returned 0 r)
      ∧ calls s' !! 0%nat = Some None
      ∧ ExecuteReturn.isCancel r
        = axios.isCancel (executeWithRetry scripted (time c) w).1.1.2
      ∧ (axios.isCancel (executeWithRetry scripted (time c) w).1.1.2 = false →
         ExecuteReturn.response r = (executeWithRetry scripted (time c) w).1.1.1
         ∧ ExecuteReturn.error r = (executeWithRetry scripted (time c) w).1.1.2
         ∧ response s' = (executeWithRetry scripted (time c) w).1.1.1
         ∧ error s' = (executeWithRetry scripted (time c) w).1.1.2).
Proof.
  intros U s c w.
  assert (H1 : calls s !! 0%nat = Some (Some c)) by (vm_compute; reflexivity).
  exact (conj H1 (execute_returns_what_executeWithRetry_resolves scripted w U 0 c s H1)).
Defined.

(** X16 on [posts] called without a payload. *)
Lemma url_sent_as_it_is_witness :
  let U := posts in
  let s := useAxios posts caller_heap in
  (isDynamicURL U = false ∨ truthy (get (heap s) VUndefined "urlParams") = false)
  ∧ ∃ _config,
      last (log (execute_body U VUndefined s))
      = Some (Request (length (calls s)) (url U) _config).
Proof.
  intros U s.
  assert (H : isDynamicURL U = false ∨ truthy (get (heap s) VUndefined "urlParams") = false)
    by (right; vm_compute; reflexivity).
  exact (conj H (url_sent_as_it_is U VUndefined s H)).
Defined.

(** X17 on [posts] and the [urlParams] in cell 3 of the caller's heap. *)
Lemma request_url_is_replace_witness :
  truthy (VObj 3) = true
  ∧ request_url posts caller_heap (VObj 3)
    = replace (λ key, String_ (get caller_heap (VObj 3) key)) (url posts).
Proof.
  assert (H : truthy (VObj 3) = true) by reflexivity.
  exact (conj H (request_url_is_replace posts caller_heap (VObj 3) H)).
Defined.

(** X18 on [posts] and the payload in cell 2 of the caller's heap. *)
Lemma leftmost_placeholder_replaced_witness :
  let U := posts in
  let s := useAxios posts caller_heap in
  url U = placeholder "/users/" "id" "/posts/{pid}"
  ∧ no_brace "/users/" = true
  ∧ "id" ≠ ""
  ∧ all_word "id" = true
  ∧ get (heap s) (VObj 2) "urlParams" = VObj 3
  ∧ (3 < length (heap s))%nat
  ∧ ∃ _config,
      last (log (execute_body U (VObj 2) s))
      = Some (Request (length (calls s))
                ("/users/" +:+ String_ (get (heap s) (VObj 3) "id") +:+ "/posts/{pid}")
                _config).
Proof.
  intros U s.
  assert (H1 : url U = placeholder "/users/" "id" "/posts/{pid}") by reflexivity.
  assert (H2 : no_brace "/users/" = true) by reflexivity.
  assert (H3 : "id" ≠ "") by discriminate.
  assert (H4 : all_word "id" = true) by reflexivity.
  assert (H5 : get (heap s) (VObj 2) "urlParams" = VObj 3) by (vm_compute; reflexivity).
  assert (H6 : (3 < length (heap s))%nat) by (vm_compute; lia).
  exact (conj H1 (conj H2 (conj H3 (conj H4 (conj H5 (conj H6
    (leftmost_placeholder_replaced U (VObj 2) s 3 "/users/" "id" "/posts/{pid}"
       H1 H2 H3 H4 H5 H6))))))).
Defined.

(** C7 as stated fails: [execute(undefined)] passes an argument, and the
    request still carries the [params] of the configured payload, where the
    argument alone would give a request without them. *)
Lemma explicit_undefined_gets_the_default :
  log (execute paged (passed (Argument VUndefined)) (useAxios paged paged_heap))
  = [Request 0 "/items"
       {[ "signal" := VSignal 0; "method" := VStr "get"; "params" := VObj 2 ]}]
  ∧ log (execute_body paged VUndefined (useAxios paged paged_heap))
    = [Request 0 "/items" {[ "signal" := VSignal 0; "method" := VStr "get" ]}]
  ∧ execute paged (passed (Argument VUndefined)) (useAxios paged paged_heap)
    ≠ execute_body paged VUndefined (useAxios paged paged_heap).
Proof.
  split; [vm_compute; reflexivity|]. split; [vm_compute; reflexivity|].
  intros H. apply (f_equal (λ s, length (heap s))) in H. vm_compute in H. discriminate.
Qed.

(** C7, as amended, on [paged] called without an argument. *)
Lemma payload_reaches_the_request_witness :
  let U := paged in
  let a := NoArgument in
  let s := useAxios paged paged_heap in
  let p := (payload_by_rule U a (heap s)).1.1 in
  let h := (payload_by_rule U a (heap s)).1.2 in
  let produced := (payload_by_rule U a (heap s)).2 in
  closed h (config U)
  ∧ closed h p
  ∧ closed h (get h p "urlParams")
  ∧ log (execute U (passed a) s)
    = log s ++ produced
      ++ [Request (length (calls s))
            (request_url U h (get h p "urlParams"))
            ({[ "signal" := VSignal (length (controllers s)) ]}
             ∪ (delete "urlParams" (props h p) ∪ props h (config U)))].
Proof.
  intros U a s p h produced.
  assert (H1 : closed h (config U)) by (vm_compute; lia).
  assert (H2 : closed h p) by (vm_compute; lia).
  assert (H3 : closed h (get h p "urlParams")) by (vm_compute; exact I).
  exact (conj H1 (conj H2 (conj H3 (payload_reaches_the_request U a s H1 H2 H3)))).
Defined.
